(** * resize_and_encode: image normalisation for upload

    A shallow embedding of [resize_and_encode] from [src/lib/bshbd.py] and
    of the part of the Python run time and of Pillow it calls, followed by
    the properties of the specification.

    - Python [int] is [Z]; Python [float] is IEEE 754 binary64, taken from
      the Standard Library's executable specification [SpecFloat]
      ([prec = 53], [emax = 1024], rounding to nearest, ties to even).
    - [bytes] is [list byte]; [str] is [string].
    - A raised exception is the [Raise] branch of [result].
    - [Image.open] reads the header of a file; the pixel data is read by
      the first operation that needs it, and what that raises is [load].
    - [calls] is the same call over a library that may answer in more
      than one way. *)

From Stdlib Require Import ZArith Lia List Bool String Ascii SpecFloat.
From Stdlib Require Import Strings.Byte.
Import ListNotations.
Open Scope Z_scope.

(** ** Exceptions and results *)

(** The Python exception classes that can leave [resize_and_encode]. *)
Inductive exn : Type :=
| FileNotFoundError       (* open(): no such file *)
| PermissionError         (* open(): the file may not be read *)
| IsADirectoryError       (* open(): the path is a directory *)
| OSError                 (* another failure of open() or of a read;
                             PIL: image file is truncated, broken data
                             stream, cannot write mode, encoder error *)
| UnidentifiedImageError  (* PIL: cannot identify image file *)
| DecompressionBombError  (* PIL: image size exceeds limit *)
| ValueError              (* PIL: height and width must be > 0; int(nan) *)
| OverflowError           (* int too large for a float or a C int; int(inf) *)
| ZeroDivisionError       (* division by zero *)
| UnicodeDecodeError.     (* bytes.decode *)

(** [issubclass(e, OSError)]: what an [except OSError] clause catches. *)
Definition is_OSError (e : exn) : bool :=
  match e with
  | FileNotFoundError | PermissionError | IsADirectoryError | OSError
  | UnidentifiedImageError => true
  | _ => false
  end.

Inductive result (A : Type) : Type :=
| Ok (a : A)
| Raise (e : exn).
Arguments Ok {A} a.
Arguments Raise {A} e.

Definition bind {A B : Type} (r : result A) (k : A -> result B) : result B :=
  match r with
  | Ok a => k a
  | Raise e => Raise e
  end.

Notation "x <- r ;; k" := (bind r (fun x => k))
  (at level 61, r at next level, right associativity).

(** The failure taxonomy of the specification, and the class each Python
    exception falls in when read in the most favourable way: an exception
    about a bad value counts as an invalid argument.  A plain [OSError]
    has no class: a failed read raises it and a truncated image raises it. *)
Inductive SpecErrorClass : Type :=
| DecodeError
| InvalidArgumentError
| SourceUnavailableError.

Definition spec_error_class (e : exn) : option SpecErrorClass :=
  match e with
  | FileNotFoundError | PermissionError | IsADirectoryError =>
      Some SourceUnavailableError
  | UnidentifiedImageError | DecompressionBombError => Some DecodeError
  | ValueError | OverflowError | ZeroDivisionError => Some InvalidArgumentError
  | OSError | UnicodeDecodeError => None
  end.

(** ** Python numbers *)

Module Py.

Definition prec : Z := 53.
Definition emax : Z := 1024.

Definition float : Type := spec_float.

(** An integer as the float of the same value, before any rounding. *)
Definition exact (n : Z) : float :=
  match n with
  | Z0 => S754_zero false
  | Zpos p => S754_finite false p 0
  | Zneg p => S754_finite true p 0
  end.

Definition finite_or_overflow (x : float) : result float :=
  match x with
  | S754_infinity _ => Raise OverflowError
  | _ => Ok x
  end.

(** [a / b] on two ints: the correctly rounded quotient. *)
Definition truediv (a b : Z) : result float :=
  if b =? 0 then Raise ZeroDivisionError
  else finite_or_overflow (SFdiv prec emax (exact a) (exact b)).

(** [float(n)]: the nearest double. *)
Definition float_of_int (n : Z) : result float :=
  finite_or_overflow (binary_normalize prec emax n 0 false).

(** [n * x] with [n] an int and [x] a float. *)
Definition mul_int_float (n : Z) (x : float) : result float :=
  fn <- float_of_int n ;;
  Ok (SFmul prec emax fn x).

(** [int(x)]: truncation toward zero. *)
Definition int (x : float) : result Z :=
  match x with
  | S754_zero _ => Ok 0
  | S754_finite s m e =>
      let a := match e with
               | Zneg k => Z.shiftr (Zpos m) (Zpos k)
               | _ => Z.shiftl (Zpos m) e
               end in
      Ok (if s then - a else a)
  | S754_infinity _ => Raise OverflowError
  | S754_nan => Raise ValueError
  end.

(** [round(x)] on a float, to the nearest int, ties to even. *)
Definition round (x : float) : result Z :=
  match x with
  | S754_zero _ => Ok 0
  | S754_finite s m e =>
      let a := match e with
               | Zneg k =>
                   let q := Z.shiftr (Zpos m) (Zpos k) in
                   let r := Z.land (Zpos m) (Z.ones (Zpos k)) in
                   let half := Z.shiftl 1 (Zpos k - 1) in
                   match r ?= half with
                   | Lt => q
                   | Gt => q + 1
                   | Eq => if Z.even q then q else q + 1
                   end
               | _ => Z.shiftl (Zpos m) e
               end in
      Ok (if s then - a else a)
  | S754_infinity _ => Raise OverflowError
  | S754_nan => Raise ValueError
  end.

(** [located N D mrs]: the record [mrs] is the quotient [N / D] cut to its
    integer part, with the place of the remainder in the round and sticky
    bits. *)
Definition located (N D : Z) (mrs : shr_record) : Prop :=
  0 < D /\ 0 <= N /\ shr_m mrs = N / D /\
  match shr_r mrs, shr_s mrs with
  | false, false => N mod D = 0
  | false, true => 0 < 2 * (N mod D) < D
  | true, false => 2 * (N mod D) = D
  | true, true => D < 2 * (N mod D)
  end.

(** A float that is not above zero: a zero, a negative number, or a NaN. *)
Definition not_above_zero (x : float) : Prop :=
  match x with
  | S754_zero _ | S754_nan => True
  | S754_finite s _ _ => s = true
  | S754_infinity _ => False
  end.

(** A float that is not below zero. *)
Definition not_below_zero (x : float) : Prop :=
  match x with
  | S754_zero _ | S754_nan => True
  | S754_finite s _ _ => s = false
  | S754_infinity _ => False
  end.

Definition signed (s : bool) (x : float) : Prop :=
  match x with
  | S754_zero _ | S754_nan => True
  | S754_finite sx _ _ | S754_infinity sx => sx = s
  end.

End Py.

(** ** The size computation of [resize_and_encode] (lines 14 to 17) *)

(** [Some (new_width, new_height)] when the image is resized, [None] when
    it is left alone. *)
Definition target_size (width height max_dimension : Z)
  : result (option (Z * Z)) :=
  if Z.max width height >? max_dimension then
    scale_factor <- Py.truediv max_dimension (Z.max width height) ;;
    wf <- Py.mul_int_float width scale_factor ;;
    new_width <- Py.int wf ;;
    hf <- Py.mul_int_float height scale_factor ;;
    new_height <- Py.int hf ;;
    Ok (Some (new_width, new_height))
  else Ok None.

(** The size as the specification words it: each side rounded to the
    nearest integer instead of truncated.  Used only to compare. *)
Definition spec_target_size (width height max_dimension : Z)
  : result (option (Z * Z)) :=
  if Z.max width height >? max_dimension then
    scale <- Py.truediv max_dimension (Z.max width height) ;;
    wf <- Py.mul_int_float width scale ;;
    new_width <- Py.round wf ;;
    hf <- Py.mul_int_float height scale ;;
    new_height <- Py.round hf ;;
    Ok (Some (new_width, new_height))
  else Ok None.

(** [new_side] is the integer part of a number that two roundings away
    from [q = side * b / M] can give: [new_side <= q * (1 + 2 ^ -53) ^ 2]
    and [q * (1 - 2 ^ -53) ^ 2 < new_side + 1], written without fractions. *)
Definition proportional (side new_side b M : Z) : Prop :=
  2 ^ 106 * (new_side * M) <= (2 ^ 53 + 1) ^ 2 * (side * b) /\
  (2 ^ 53 - 1) ^ 2 * (side * b) < 2 ^ 106 * ((new_side + 1) * M).

(** ** base64.b64encode and bytes.decode *)

Module Base64.

Open Scope N_scope.

(** The standard alphabet of RFC 4648. *)
Definition alphabet : list byte :=
  list_byte_of_string
    "ABCDEFGHIJKLMNOPQRSTUVWXYZabcdefghijklmnopqrstuvwxyz0123456789+/".

Definition pad : byte := "="%byte.

Definition byte_of_N (n : N) : byte :=
  match Byte.of_N n with
  | Some b => b
  | None => "000"%byte
  end.

(** The character of a six-bit value. *)
Definition char (n : N) : byte := nth (N.to_nat n) alphabet pad.

(** The four characters of a full group of three bytes, and the padded
    tails of one and two bytes, as [binascii.b2a_base64] emits them. *)
Definition group3 (b0 b1 b2 : byte) : list byte :=
  let n0 := Byte.to_N b0 in
  let n1 := Byte.to_N b1 in
  let n2 := Byte.to_N b2 in
  [ char (N.shiftr n0 2);
    char (N.lor (N.shiftl (N.land n0 3) 4) (N.shiftr n1 4));
    char (N.lor (N.shiftl (N.land n1 15) 2) (N.shiftr n2 6));
    char (N.land n2 63) ].

Definition group2 (b0 b1 : byte) : list byte :=
  let n0 := Byte.to_N b0 in
  let n1 := Byte.to_N b1 in
  [ char (N.shiftr n0 2);
    char (N.lor (N.shiftl (N.land n0 3) 4) (N.shiftr n1 4));
    char (N.shiftl (N.land n1 15) 2);
    pad ].

Definition group1 (b0 : byte) : list byte :=
  let n0 := Byte.to_N b0 in
  [ char (N.shiftr n0 2);
    char (N.shiftl (N.land n0 3) 4);
    pad;
    pad ].

(** [base64.b64encode(s)]: no line breaks are inserted. *)
Fixpoint b64encode (s : list byte) : list byte :=
  match s with
  | [] => []
  | [b0] => group1 b0
  | [b0; b1] => group2 b0 b1
  | b0 :: b1 :: b2 :: rest => group3 b0 b1 b2 ++ b64encode rest
  end.

(** The six-bit value of a character of the alphabet. *)
Fixpoint index_of (c : byte) (l : list byte) (i : N) : option N :=
  match l with
  | [] => None
  | a :: l' => if Byte.eqb a c then Some i else index_of c l' (N.succ i)
  end.

Definition value (c : byte) : option N := index_of c alphabet 0.

(** A strict decoder: every character is of the alphabet, the length is a
    multiple of four, and padding closes the last group only. *)
Definition ungroup (c0 c1 c2 c3 : byte) (last : bool) : option (list byte) :=
  match value c0, value c1 with
  | Some v0, Some v1 =>
      let x0 := byte_of_N (N.lor (N.shiftl v0 2) (N.shiftr v1 4)) in
      if last && Byte.eqb c2 pad && Byte.eqb c3 pad then Some [x0]
      else
        match value c2 with
        | Some v2 =>
            let x1 :=
              byte_of_N (N.lor (N.shiftl (N.land v1 15) 4) (N.shiftr v2 2)) in
            if last && Byte.eqb c3 pad then Some [x0; x1]
            else
              match value c3 with
              | Some v3 =>
                  let x2 := byte_of_N (N.lor (N.shiftl (N.land v2 3) 6) v3) in
                  Some [x0; x1; x2]
              | None => None
              end
        | None => None
        end
  | _, _ => None
  end.

Fixpoint b64decode (s : list byte) : option (list byte) :=
  match s with
  | [] => Some []
  | c0 :: c1 :: c2 :: c3 :: rest =>
      match ungroup c0 c1 c2 c3 (match rest with [] => true | _ => false end),
            b64decode rest with
      | Some g, Some d => Some (g ++ d)
      | _, _ => None
      end
  | _ => None
  end.

(** A character of standard base64 text: of the alphabet, or the pad. *)
Definition is_b64_char (c : byte) : bool :=
  match value c with
  | Some _ => true
  | None => Byte.eqb c pad
  end.

(** Every byte, for checks by enumeration. *)
Definition all_bytes : list byte :=
  map (fun n => byte_of_N (N.of_nat n)) (seq 0 256).

(** The six-bit values of a group. *)
Definition s0 (b0 : byte) : N := N.shiftr (Byte.to_N b0) 2.
Definition s1 (b0 b1 : byte) : N :=
  N.lor (N.shiftl (N.land (Byte.to_N b0) 3) 4) (N.shiftr (Byte.to_N b1) 4).
Definition s2 (b1 b2 : byte) : N :=
  N.lor (N.shiftl (N.land (Byte.to_N b1) 15) 2) (N.shiftr (Byte.to_N b2) 6).
Definition s3 (b2 : byte) : N := N.land (Byte.to_N b2) 63.

Definition is_value (c : byte) (n : N) : bool :=
  match value c with
  | Some v => N.eqb v n && negb (Byte.eqb c pad) && (Byte.to_N c <? 128)%N
  | None => false
  end.

(** The characters of the text: of the alphabet or the pad, below 0x80,
    and never a line break. *)
Definition text_char (c : byte) : bool :=
  is_b64_char c && (Byte.to_N c <? 128)%N
  && negb (Byte.eqb c "010"%byte) && negb (Byte.eqb c "013"%byte).

Close Scope N_scope.

(** [bytes.decode('utf-8')] on bytes below 0x80, which stand for
    themselves; a byte from 0x80 on starts a multi-byte sequence, which this
    model does not follow and rejects. *)
Fixpoint decode_utf8 (s : list byte) : result string :=
  match s with
  | [] => Ok EmptyString
  | b :: rest =>
      if (Byte.to_N b <? 128)%N then
        r <- decode_utf8 rest ;;
        Ok (String (ascii_of_byte b) r)
      else Raise UnicodeDecodeError
  end.

End Base64.

(** ** Pillow *)

(** Image modes, with the number of bands of each. *)
Inductive Mode : Type :=
| Mode_1 | Mode_L | Mode_LA | Mode_P | Mode_RGB | Mode_RGBA | Mode_CMYK.

Definition bands (m : Mode) : Z :=
  match m with
  | Mode_1 | Mode_L | Mode_P => 1
  | Mode_LA => 2
  | Mode_RGB => 3
  | Mode_RGBA | Mode_CMYK => 4
  end.

Definition has_alpha (m : Mode) : bool :=
  match m with
  | Mode_LA | Mode_RGBA => true
  | _ => false
  end.

Inductive Resampling : Type :=
| NEAREST | BOX | BILINEAR | HAMMING | BICUBIC | LANCZOS.

(** libjpeg's [JPEG_MAX_DIMENSION]. *)
Definition JPEG_MAX_DIMENSION : Z := 65500.

(** [Image.MAX_IMAGE_PIXELS], as Pillow sets it. *)
Definition MAX_IMAGE_PIXELS : Z := 1024 * 1024 * 1024 / 4 / 3.

(** The core of the imaging library.  An [image] is an [Image] object:
    one that [Image.open] made has its size and mode from the header of
    the file and its pixel data still in the file.  What a decoder, the
    resampler, the mode converter and the JPEG encoder compute is left
    open; what they do to the size and the mode of an image is fixed.

    - [decode bytes] is the image a plugin identifies in [bytes];
    - [load img] is the exception that reading the pixel data of [img]
      raises, [None] when it loads: [OSError] for a file cut short;
    - [interrupted img] is [img] opened on a device that fails once the
      header has been read;
    - an image made by [resample] or [convert] is in memory. *)
Class Imaging : Type := {
  image : Type;
  size : image -> Z * Z;
  mode : image -> Mode;
  decode : list byte -> option image;
  load : image -> option exn;
  interrupted : image -> image;
  resample : image -> Z * Z -> Resampling -> image;
  convert : image -> Mode -> image;
  jpeg_encode : image -> Z -> list byte;
  size_interrupted : forall im, size (interrupted im) = size im;
  mode_interrupted : forall im, mode (interrupted im) = mode im;
  load_interrupted : forall im, load (interrupted im) = Some OSError;
  size_resample : forall im w h f,
    1 <= w -> 1 <= h -> size (resample im (w, h) f) = (w, h);
  mode_resample : forall im sz f, mode (resample im sz f) = mode im;
  load_resample : forall im sz f, load (resample im sz f) = None;
  size_convert : forall im m, size (convert im m) = size im;
  mode_convert : forall im m, mode (convert im m) = m;
  load_convert : forall im m, load (convert im m) = None;
  decode_jpeg_encode : forall im quality w h,
    mode im = Mode_RGB -> size im = (w, h) ->
    1 <= w <= JPEG_MAX_DIMENSION -> 1 <= h <= JPEG_MAX_DIMENSION ->
    exists im', decode (jpeg_encode im quality) = Some im' /\
                size im' = (w, h) /\ mode im' = Mode_RGB /\
                load im' = None
}.

(** What a path leads to. *)
Inductive file : Type :=
| Missing                        (* no such file *)
| Unreadable                     (* a file that may not be read *)
| Directory                      (* a directory *)
| Unavailable                    (* [open] or the first read fails
                                    in another way *)
| Content (bytes : list byte)    (* a file that reads as [bytes] *)
| Faulty (bytes : list byte).    (* the same on a device that fails once
                                    the header has been read *)

Definition filesystem : Type := string -> file.

Section Pillow.

Context {PIL : Imaging}.

(** The checks of [Image.open] on what a plugin identified: a plugin that
    finds a side below 1 is passed over, and with no plugin left the file
    is not identified; more than twice [MAX_IMAGE_PIXELS] pixels are
    refused (from [MAX_IMAGE_PIXELS] on there is only a warning). *)
Definition identified (img : image) : result image :=
  let '(w, h) := size img in
  if (w <? 1) || (h <? 1) then Raise UnidentifiedImageError
  else if 2 * MAX_IMAGE_PIXELS <? w * h then Raise DecompressionBombError
  else Ok img.

(** [Image.open(path)]: the file is opened and its header read; the pixel
    data is read when it is first needed. *)
Definition Image_open (fs : filesystem) (path : string) : result image :=
  match fs path with
  | Missing => Raise FileNotFoundError
  | Unreadable => Raise PermissionError
  | Directory => Raise IsADirectoryError
  | Unavailable => Raise OSError
  | Content bytes =>
      match decode bytes with
      | Some img => identified img
      | None => Raise UnidentifiedImageError
      end
  | Faulty bytes =>
      match decode bytes with
      | Some img => identified (interrupted img)
      | None => Raise UnidentifiedImageError
      end
  end.

(** A Python int that fits a C [int]. *)
Definition C_int (n : Z) : bool := (- 2 ^ 31 <=? n) && (n <? 2 ^ 31).

(** [img.resize((w, h), resample)]: the pixel data is loaded, the two
    sides are handed to C as [int]s, and height and width must be > 0. *)
Definition Image_resize (img : image) (sz : Z * Z) (f : Resampling)
  : result image :=
  let '(w, h) := sz in
  match load img with
  | Some e => Raise e
  | None =>
      if negb (C_int w && C_int h) then Raise OverflowError
      else if (w <? 1) || (h <? 1) then Raise ValueError
      else Ok (resample img (w, h) f)
  end.

(** [img.convert(mode)]: the pixel data is loaded first. *)
Definition Image_convert (img : image) (m : Mode) : result image :=
  match load img with
  | Some e => Raise e
  | None => Ok (convert img m)
  end.

(** Modes the JPEG plugin writes. *)
Definition jpeg_writes (m : Mode) : bool :=
  match m with
  | Mode_1 | Mode_L | Mode_RGB | Mode_CMYK => true
  | Mode_LA | Mode_P | Mode_RGBA => false
  end.

(** [img.save(buffered, format="JPEG", quality=q)] followed by
    [buffered.getvalue()] on a fresh [BytesIO]. *)
Definition Image_save_JPEG (img : image) (quality : Z) : result (list byte) :=
  match load img with
  | Some e => Raise e
  | None =>
      let '(w, h) := size img in
      if (w <? 1) || (h <? 1) then Raise ValueError
      else if negb (jpeg_writes (mode img)) then Raise OSError
      else if (JPEG_MAX_DIMENSION <? w) || (JPEG_MAX_DIMENSION <? h)
           then Raise OSError
      else Ok (jpeg_encode img quality)
  end.

(** ** resize_and_encode  (src/lib/bshbd.py, lines 6 to 28) *)

Definition resize_and_encode
  (fs : filesystem) (image_path : string) (max_dimension : Z)
  : result string :=
  img <- Image_open fs image_path ;;
  let '(width, height) := size img in
  img <- (if Z.max width height >? max_dimension then
            scale_factor <- Py.truediv max_dimension (Z.max width height) ;;
            wf <- Py.mul_int_float width scale_factor ;;
            new_width <- Py.int wf ;;
            hf <- Py.mul_int_float height scale_factor ;;
            new_height <- Py.int hf ;;
            Image_resize img (new_width, new_height) LANCZOS
          else Ok img) ;;
  img <- Image_convert img Mode_RGB ;;
  buffered <- Image_save_JPEG img 85 ;;
  Base64.decode_utf8 (Base64.b64encode buffered).

(** The default of the [max_dimension] parameter. *)
Definition default_max_dimension : Z := 2048.

(** The stages of [resize_and_encode] after the image is open: the
    raster handed to the encoder, and the compressed stream. *)
Definition resized (img : image) (max_dimension : Z) : result image :=
  let '(width, height) := size img in
  sz <- target_size width height max_dimension ;;
  match sz with
  | Some new_size => Image_resize img new_size LANCZOS
  | None => Ok img
  end.

Definition compressed (img : image) (max_dimension : Z)
  : result (list byte) :=
  img' <- resized img max_dimension ;;
  rgb <- Image_convert img' Mode_RGB ;;
  Image_save_JPEG rgb 85.

(** The image a caller gets back from the returned text. *)
Definition output_image (text : string) : option image :=
  match Base64.b64decode (list_byte_of_string text) with
  | Some bytes => decode bytes
  | None => None
  end.

End Pillow.

(** ** A small imaging library

    A concrete [Imaging] on which the model runs: an image is its size,
    its mode and what loading it raises; a file is a tag ([I] for a whole
    file, [K] for one cut short), a mode letter and the two sides written
    in binary digits; the JPEG stream is a tag, the quality and the two
    sides. *)

Module Sample.

Record raster : Type := {
  r_size : Z * Z;
  r_mode : Mode;
  r_load : option exn
}.

Fixpoint digits (p : positive) : list byte :=
  match p with
  | xH => ["."%byte]
  | xO q => "0"%byte :: digits q
  | xI q => "1"%byte :: digits q
  end.

Fixpoint undigits (s : list byte) : option (positive * list byte) :=
  match s with
  | [] => None
  | c :: rest =>
      if Byte.eqb c "."%byte then Some (xH, rest)
      else
        match undigits rest with
        | Some (q, rest') =>
            if Byte.eqb c "0"%byte then Some (xO q, rest')
            else if Byte.eqb c "1"%byte then Some (xI q, rest')
            else None
        | None => None
        end
  end.

Definition mode_letter (m : Mode) : byte :=
  match m with
  | Mode_1 => "1" | Mode_L => "L" | Mode_LA => "A" | Mode_P => "P"
  | Mode_RGB => "R" | Mode_RGBA => "T" | Mode_CMYK => "C"
  end%byte.

Definition letter_mode (c : byte) : option Mode :=
  find (fun m => Byte.eqb (mode_letter m) c)
    [Mode_1; Mode_L; Mode_LA; Mode_P; Mode_RGB; Mode_RGBA; Mode_CMYK].

Definition sides (s : list byte) : option (Z * Z) :=
  match undigits s with
  | Some (w, rest) =>
      match undigits rest with
      | Some (h, []) => Some (Zpos w, Zpos h)
      | _ => None
      end
  | None => None
  end.

(** The bytes of a stored image of the given mode and size. *)
Definition stored (m : Mode) (w h : Z) : list byte :=
  "I"%byte :: mode_letter m :: digits (Z.to_pos w) ++ digits (Z.to_pos h).

(** The same file cut short: the header is whole, the pixel data is not. *)
Definition truncated (m : Mode) (w h : Z) : list byte :=
  "K"%byte :: mode_letter m :: digits (Z.to_pos w) ++ digits (Z.to_pos h).

Definition r_decode (s : list byte) : option raster :=
  match s with
  | tag :: c :: rest =>
      if Byte.eqb tag "I"%byte then
        match letter_mode c, sides rest with
        | Some m, Some sz =>
            Some {| r_size := sz; r_mode := m; r_load := None |}
        | _, _ => None
        end
      else if Byte.eqb tag "K"%byte then
        match letter_mode c, sides rest with
        | Some m, Some sz =>
            Some {| r_size := sz; r_mode := m; r_load := Some OSError |}
        | _, _ => None
        end
      else if Byte.eqb tag "J"%byte then
        match sides rest with
        | Some sz =>
            Some {| r_size := sz; r_mode := Mode_RGB; r_load := None |}
        | None => None
        end
      else None
  | _ => None
  end.

Definition r_jpeg (im : raster) (quality : Z) : list byte :=
  "J"%byte :: Base64.byte_of_N (Z.to_N quality)
    :: digits (Z.to_pos (fst (r_size im)))
    ++ digits (Z.to_pos (snd (r_size im))).

Definition r_interrupted (im : raster) : raster :=
  {| r_size := r_size im; r_mode := r_mode im; r_load := Some OSError |}.

Definition r_resample (im : raster) (sz : Z * Z) (f : Resampling) : raster :=
  {| r_size := sz; r_mode := r_mode im; r_load := None |}.

Definition r_convert (im : raster) (m : Mode) : raster :=
  {| r_size := r_size im; r_mode := m; r_load := None |}.

(** A file system with one file. *)
Definition one_file (name : string) (bytes : list byte) : filesystem :=
  fun path => if String.eqb path name then Content bytes else Missing.

Definition no_file : filesystem := fun _ => Missing.

Definition locked_file (name : string) : filesystem :=
  fun path => if String.eqb path name then Unreadable else Missing.

(** A file system whose one path leads to [f]. *)
Definition one_path (name : string) (f : file) : filesystem :=
  fun path => if String.eqb path name then f else Missing.

Lemma undigits_digits (p : positive) (rest : list byte) :
  undigits (digits p ++ rest) = Some (p, rest).
Proof.
  induction p as [q IH | q IH | ]; simpl; try rewrite IH; reflexivity.
Qed.

Lemma sides_digits (w h : positive) :
  sides (digits w ++ digits h) = Some (Zpos w, Zpos h).
Proof.
  unfold sides. rewrite undigits_digits.
  rewrite <- (app_nil_r (digits h)), undigits_digits. reflexivity.
Qed.

Lemma r_decode_jpeg (im : raster) (quality w h : Z) :
  r_mode im = Mode_RGB -> r_size im = (w, h) ->
  1 <= w <= JPEG_MAX_DIMENSION -> 1 <= h <= JPEG_MAX_DIMENSION ->
  exists im', r_decode (r_jpeg im quality) = Some im' /\
              r_size im' = (w, h) /\ r_mode im' = Mode_RGB /\
              r_load im' = None.
Proof.
  intros _ Hsz Hw Hh. unfold r_jpeg. rewrite Hsz. simpl fst. simpl snd.
  unfold r_decode.
  change (Byte.eqb "J" "I") with false. change (Byte.eqb "J" "K") with false.
  change (Byte.eqb "J" "J") with true.
  cbv iota. rewrite sides_digits.
  eexists; split; [reflexivity|]. simpl. split; [|split; reflexivity].
  rewrite !Z2Pos.id by lia. reflexivity.
Qed.

#[export] Instance pil : Imaging := {|
  image := raster;
  size := r_size;
  mode := r_mode;
  decode := r_decode;
  load := r_load;
  interrupted := r_interrupted;
  resample := r_resample;
  convert := r_convert;
  jpeg_encode := r_jpeg;
  size_interrupted := fun _ => eq_refl;
  mode_interrupted := fun _ => eq_refl;
  load_interrupted := fun _ => eq_refl;
  size_resample := fun _ _ _ _ _ _ => eq_refl;
  mode_resample := fun _ _ _ => eq_refl;
  load_resample := fun _ _ _ => eq_refl;
  size_convert := fun _ _ => eq_refl;
  mode_convert := fun _ _ => eq_refl;
  load_convert := fun _ _ => eq_refl;
  decode_jpeg_encode := r_decode_jpeg
|}.

End Sample.

(** ** Sample inputs *)

Module Examples.

Import Sample.

Definition scan_4000x3000 : filesystem :=
  one_file "huge_scan.png" (stored Mode_RGBA 4000 3000).

Definition scan_1024x768 : filesystem :=
  one_file "huge_scan.png" (stored Mode_CMYK 1024 768).

Definition scan_2048x1536 : filesystem :=
  one_file "huge_scan.png" (stored Mode_L 2048 1536).

Definition scan_2215x2215 : filesystem :=
  one_file "huge_scan.png" (stored Mode_RGB 2215 2215).

Definition strip_1x5000 : filesystem :=
  one_file "strip.png" (stored Mode_RGB 1 5000).

Definition not_an_image : filesystem :=
  one_file "notes.txt" (list_byte_of_string "Extract JSON data...").

(** A 300 x 200 image whose file was cut short. *)
Definition cut_300x200 : filesystem :=
  one_file "cut.png" (truncated Mode_RGB 300 200).

(** A 300 x 200 image on a device that fails after the header. *)
Definition faulty_300x200 : filesystem :=
  one_path "faulty.png" (Faulty (stored Mode_RGB 300 200)).

Definition a_directory : filesystem := one_path "scans" Directory.

Definition bad_device : filesystem := one_path "huge_scan.png" Unavailable.

(** 100000 x 10: a side the JPEG encoder does not write. *)
Definition banner_100000x10 : filesystem :=
  one_file "banner.png" (stored Mode_RGB 100000 10).

(** 20000 x 20000: more pixels than [Image.open] accepts. *)
Definition bomb_20000x20000 : filesystem :=
  one_file "bomb.png" (stored Mode_L 20000 20000).

End Examples.


(** ** The failure of a call on an open image

    After the image is open, lines 13 to 25 can fail in the size
    arithmetic, in loading the pixel data, in the resize and in the JPEG
    writer: the exception, if any, is read off the size of the image and
    what loading it raises. *)

Definition resize_failure (w h : Z) : option exn :=
  if negb (C_int w && C_int h) then Some OverflowError
  else if (w <? 1) || (h <? 1) then Some ValueError
  else None.




(** ** The script around the function  (src/lib/bshbd.py, lines 32 to 58) *)

Module Script.

(** What the [try] block can raise and the [except Exception] clause
    catches: the [NameError] of a global that is not bound, and an exception
    of the client or of [json.loads], kept by the text [str] gives it. *)
Inductive caught : Type :=
| NameError (name : string)
| Raised (message : string).

(** [str(e)]. *)
Definition str (e : caught) : string :=
  match e with
  | NameError name => "name '" ++ name ++ "' is not defined"
  | Raised message => message
  end.

(** What [except Exception] does not catch: the exceptions that derive
    from [BaseException] and not from [Exception]. *)
Inductive passing : Type :=
| KeyboardInterrupt
| SystemExit
| GeneratorExit.

Inductive tried (A : Type) : Type :=
| Got (a : A)
| Threw (e : caught)
| Passed (e : passing).
Arguments Got {A} a.
Arguments Threw {A} e.
Arguments Passed {A} e.

(** The keyword arguments of [client.chat.completions.create]. *)
Inductive part : Type :=
| Text (text : string)
| Image_url (url detail : string).

Record message : Type := { role : string; content : list part }.

Record request : Type := {
  model : string;
  messages : list message;
  response_format : string
}.

(** What the script finds around it.  [client] is the global of that name
    when one is bound: for a request, the [response.choices[0].message.content]
    its [chat.completions.create] comes to, or the exception raised on the
    way.  [show_json] is the text [print] writes for [json.loads(content)],
    or the exception [json.loads] raises. *)
Record environment : Type := {
  client : option (request -> tried string);
  show_json : string -> tried string
}.

(** How the script ends: at its last line; on the exception line 32
    raised; or on an exception that passed the [except] clause. *)
Inductive ending : Type :=
| Done
| Uncaught (e : exn)
| Interrupted (e : passing).

(** A run: the lines printed, the requests made of the client, and how
    the script ends. *)
Record run : Type := {
  printed : list string;
  requested : list request;
  outcome : ending
}.

(** The f-string of line 45. *)
Definition data_url (base64_image : string) : string :=
  "data:image/jpeg;base64," ++ base64_image.

(** The arguments of lines 36 to 53. *)
Definition the_request (base64_image : string) : request :=
  {| model := "gpt-5.1";
     messages :=
       [ {| role := "user";
            content :=
              [ Text "Extract JSON data...";
                Image_url (data_url base64_image) "auto" ] |} ];
     response_format := "json_object" |}.

(** The f-string of line 58. *)
Definition error_line (e : caught) : string := "Error: " ++ str e.

Section Run.

Context {PIL : Imaging}.

(** Lines 32 to 58.  Line 32 stands outside the [try]. *)
Definition script (fs : filesystem) (env : environment) : run :=
  match resize_and_encode fs "huge_scan.png" default_max_dimension with
  | Raise e => {| printed := []; requested := []; outcome := Uncaught e |}
  | Ok base64_image =>
      match client env with
      | None =>
          {| printed := [error_line (NameError "client")];
             requested := [];
             outcome := Done |}
      | Some create =>
          let req := the_request base64_image in
          match create req with
          | Passed e =>
              {| printed := [];
                 requested := [req];
                 outcome := Interrupted e |}
          | Threw e =>
              {| printed := [error_line e];
                 requested := [req];
                 outcome := Done |}
          | Got content =>
              match show_json env content with
              | Got shown =>
                  {| printed := [shown];
                     requested := [req];
                     outcome := Done |}
              | Threw e =>
                  {| printed := [error_line e];
                     requested := [req];
                     outcome := Done |}
              | Passed e =>
                  {| printed := [];
                     requested := [req];
                     outcome := Interrupted e |}
              end
          end
      end
  end.

End Run.

(** The part of a data URL after the comma. *)
Fixpoint after_comma (url : string) : string :=
  match url with
  | EmptyString => EmptyString
  | String c rest => if Ascii.eqb c "," then rest else after_comma rest
  end.

(** The image parts of a request. *)
Definition image_urls (req : request) : list string :=
  flat_map
    (fun m =>
       flat_map
         (fun p => match p with Image_url url _ => [url] | Text _ => [] end)
         (content m))
    (messages req).

(** The file as it stands binds no [client]. *)
Definition bare (show : string -> tried string) : environment :=
  {| client := None; show_json := show |}.

End Script.

(** ** The call as a relation

    The same lines over a library that is free to answer a call in more
    than one way.  Each operation of the library is the relation between
    its arguments and the results it may give; [calls] relates a call of
    [resize_and_encode] to the results it may then give.  What
    [resize_and_encode] computes itself, the size arithmetic and the
    base64 text, is a function as before. *)

Record Library : Type := {
  object : Type;
  dimensions : object -> Z * Z;
  opens : file -> result object -> Prop;
  resizes : object -> Z * Z -> Resampling -> result object -> Prop;
  converts : object -> Mode -> result object -> Prop;
  saves : object -> Z -> result (list byte) -> Prop
}.

(** A step that may give any result of [R], followed by [K] when the
    result is a value; an exception ends the call. *)
Definition after {A B : Type} (R : result A -> Prop)
    (K : A -> result B -> Prop) (r : result B) : Prop :=
  (exists e, R (Raise e) /\ r = Raise e) \/ (exists a, R (Ok a) /\ K a r).

(** A step with one result. *)
Definition exactly {A : Type} (r0 : result A) (r : result A) : Prop :=
  r = r0.

Definition calls (L : Library)
    (fs : filesystem) (image_path : string) (max_dimension : Z)
  : result string -> Prop :=
  after (opens L (fs image_path)) (fun img =>
  after (after (exactly (target_size (fst (dimensions L img))
                           (snd (dimensions L img)) max_dimension))
           (fun new_size =>
              match new_size with
              | Some new_size => resizes L img new_size LANCZOS
              | None => exactly (Ok img)
              end)) (fun img =>
  after (converts L img Mode_RGB) (fun img =>
  after (saves L img 85) (fun buffered =>
  exactly (Base64.decode_utf8 (Base64.b64encode buffered)))))).




(** The same library with an encoder that answers with its stream or
    with the stream and one more byte. *)
Definition library_unsettled (PIL : Imaging) : Library := {|
  object := image;
  dimensions := size;
  opens := fun f => exactly (Image_open (fun _ => f) EmptyString);
  resizes := fun img sz f => exactly (Image_resize img sz f);
  converts := fun img m => exactly (Image_convert img m);
  saves := fun img quality r =>
    r = Image_save_JPEG img quality \/
    exists bytes, Image_save_JPEG img quality = Ok bytes /\
                  r = Ok (bytes ++ ["000"%byte])
|}.

(** * Properties *)

(** ** Base64 *)

Module Base64Facts.
Import Base64.

Lemma in_all_bytes (b : byte) : In b all_bytes.
Proof.
  assert (H : existsb (Byte.eqb b) all_bytes = true)
    by (destruct b; vm_compute; reflexivity).
  apply existsb_exists in H. destruct H as [x [Hin Heq]].
  apply Byte.byte_dec_bl in Heq. subst x. exact Hin.
Qed.

Lemma for_all_bytes (P : byte -> bool) :
  forallb P all_bytes = true -> forall b, P b = true.
Proof.
  intros H b. rewrite forallb_forall in H. apply H, in_all_bytes.
Qed.

Lemma for_all_pairs (P : byte -> byte -> bool) :
  forallb (fun a => forallb (P a) all_bytes) all_bytes = true ->
  forall a b, P a b = true.
Proof.
  intros H a. apply for_all_bytes. revert a. apply for_all_bytes, H.
Qed.

Lemma is_value_spec (c : byte) (n : N) :
  is_value c n = true ->
  value c = Some n /\ Byte.eqb c pad = false /\ (Byte.to_N c <? 128)%N = true.
Proof.
  unfold is_value. destruct (value c) as [v|]; [|discriminate].
  rewrite !andb_true_iff, negb_true_iff, N.eqb_eq.
  intros [[-> H1] H2]. auto.
Qed.

Lemma value_s0 b0 : is_value (char (s0 b0)) (s0 b0) = true.
Proof. revert b0. apply for_all_bytes. vm_compute. reflexivity. Qed.

Lemma value_s1 b0 b1 : is_value (char (s1 b0 b1)) (s1 b0 b1) = true.
Proof. revert b0 b1. apply for_all_pairs. vm_compute. reflexivity. Qed.

Lemma value_s2 b1 b2 : is_value (char (s2 b1 b2)) (s2 b1 b2) = true.
Proof. revert b1 b2. apply for_all_pairs. vm_compute. reflexivity. Qed.

Lemma value_s3 b2 : is_value (char (s3 b2)) (s3 b2) = true.
Proof. revert b2. apply for_all_bytes. vm_compute. reflexivity. Qed.

Lemma value_tail1 b0 :
  is_value (char (N.shiftl (N.land (Byte.to_N b0) 3) 4))
           (N.shiftl (N.land (Byte.to_N b0) 3) 4) = true.
Proof. revert b0. apply for_all_bytes. vm_compute. reflexivity. Qed.

Lemma value_tail2 b1 :
  is_value (char (N.shiftl (N.land (Byte.to_N b1) 15) 2))
           (N.shiftl (N.land (Byte.to_N b1) 15) 2) = true.
Proof. revert b1. apply for_all_bytes. vm_compute. reflexivity. Qed.

(** The bytes come back from the six-bit values. *)
Lemma first_byte b0 b1 :
  byte_of_N (N.lor (N.shiftl (s0 b0) 2) (N.shiftr (s1 b0 b1) 4)) = b0.
Proof.
  apply Byte.byte_dec_bl. revert b0 b1.
  apply (for_all_pairs (fun b0 b1 =>
    Byte.eqb (byte_of_N (N.lor (N.shiftl (s0 b0) 2) (N.shiftr (s1 b0 b1) 4)))
             b0)).
  vm_compute. reflexivity.
Qed.

Lemma first_byte_tail b0 :
  byte_of_N (N.lor (N.shiftl (s0 b0) 2)
               (N.shiftr (N.shiftl (N.land (Byte.to_N b0) 3) 4) 4)) = b0.
Proof.
  apply Byte.byte_dec_bl. revert b0.
  apply (for_all_bytes (fun b0 =>
    Byte.eqb (byte_of_N (N.lor (N.shiftl (s0 b0) 2)
               (N.shiftr (N.shiftl (N.land (Byte.to_N b0) 3) 4) 4))) b0)).
  vm_compute. reflexivity.
Qed.

Lemma low_s1 b0 b1 : N.land (s1 b0 b1) 15 = N.shiftr (Byte.to_N b1) 4.
Proof.
  apply N.eqb_eq. revert b0 b1.
  apply (for_all_pairs (fun b0 b1 =>
    N.eqb (N.land (s1 b0 b1) 15) (N.shiftr (Byte.to_N b1) 4))).
  vm_compute. reflexivity.
Qed.

Lemma second_byte b1 b2 :
  byte_of_N (N.lor (N.shiftl (N.shiftr (Byte.to_N b1) 4) 4)
               (N.shiftr (s2 b1 b2) 2)) = b1.
Proof.
  apply Byte.byte_dec_bl. revert b1 b2.
  apply (for_all_pairs (fun b1 b2 =>
    Byte.eqb (byte_of_N (N.lor (N.shiftl (N.shiftr (Byte.to_N b1) 4) 4)
                           (N.shiftr (s2 b1 b2) 2))) b1)).
  vm_compute. reflexivity.
Qed.

Lemma second_byte_tail b1 :
  byte_of_N (N.lor (N.shiftl (N.shiftr (Byte.to_N b1) 4) 4)
               (N.shiftr (N.shiftl (N.land (Byte.to_N b1) 15) 2) 2)) = b1.
Proof.
  apply Byte.byte_dec_bl. revert b1.
  apply (for_all_bytes (fun b1 =>
    Byte.eqb (byte_of_N (N.lor (N.shiftl (N.shiftr (Byte.to_N b1) 4) 4)
               (N.shiftr (N.shiftl (N.land (Byte.to_N b1) 15) 2) 2))) b1)).
  vm_compute. reflexivity.
Qed.

Lemma third_byte b1 b2 :
  byte_of_N (N.lor (N.shiftl (N.land (s2 b1 b2) 3) 6) (s3 b2)) = b2.
Proof.
  apply Byte.byte_dec_bl. revert b1 b2.
  apply (for_all_pairs (fun b1 b2 =>
    Byte.eqb (byte_of_N (N.lor (N.shiftl (N.land (s2 b1 b2) 3) 6) (s3 b2)))
             b2)).
  vm_compute. reflexivity.
Qed.


Lemma list_ind3 (A : Type) (P : list A -> Prop) :
  P [] -> (forall a, P [a]) -> (forall a b, P [a; b]) ->
  (forall a b c l, P l -> P (a :: b :: c :: l)) ->
  forall l, P l.
Proof.
  intros H0 H1 H2 H3.
  fix IH 1. intros [|a [|b [|c l]]].
  - exact H0.
  - apply H1.
  - apply H2.
  - apply H3, IH.
Qed.

Ltac use_value H :=
  let Hv := fresh "Hv" in
  let Hp := fresh "Hp" in
  destruct (is_value_spec _ _ H) as [Hv [Hp _]];
  try rewrite Hv; try rewrite Hp.

Lemma ungroup_group3 b0 b1 b2 (last : bool) :
  ungroup (char (s0 b0)) (char (s1 b0 b1)) (char (s2 b1 b2)) (char (s3 b2))
          last = Some [b0; b1; b2].
Proof.
  unfold ungroup.
  use_value (value_s0 b0). use_value (value_s1 b0 b1).
  use_value (value_s2 b1 b2). use_value (value_s3 b2).
  rewrite !andb_false_r. cbn [andb].
  rewrite first_byte, low_s1, second_byte, third_byte. reflexivity.
Qed.

Lemma ungroup_group2 b0 b1 :
  ungroup (char (s0 b0)) (char (s1 b0 b1))
          (char (N.shiftl (N.land (Byte.to_N b1) 15) 2)) pad true
  = Some [b0; b1].
Proof.
  unfold ungroup.
  use_value (value_s0 b0). use_value (value_s1 b0 b1).
  use_value (value_tail2 b1).
  change (Byte.eqb pad pad) with true. cbn [andb].
  rewrite first_byte, low_s1, second_byte_tail. reflexivity.
Qed.

Lemma ungroup_group1 b0 :
  ungroup (char (s0 b0)) (char (N.shiftl (N.land (Byte.to_N b0) 3) 4))
          pad pad true
  = Some [b0].
Proof.
  unfold ungroup.
  use_value (value_s0 b0). use_value (value_tail1 b0).
  change (Byte.eqb pad pad) with true. cbn [andb].
  rewrite first_byte_tail. reflexivity.
Qed.

Lemma b64encode_nil (s : list byte) : b64encode s = [] -> s = [].
Proof. destruct s as [|a [|b [|c l]]]; simpl; try discriminate; auto. Qed.

(** Decoding undoes encoding. *)
Lemma b64decode_b64encode (s : list byte) :
  b64decode (b64encode s) = Some s.
Proof.
  induction s as [ | b0 | b0 b1 | b0 b1 b2 rest IH] using list_ind3.
  - reflexivity.
  - cbn [b64encode group1 b64decode]. fold (s0 b0).
    rewrite ungroup_group1. reflexivity.
  - cbn [b64encode group2 b64decode]. fold (s0 b0) (s1 b0 b1).
    rewrite ungroup_group2. reflexivity.
  - cbn [b64encode group3 app b64decode].
    fold (s0 b0) (s1 b0 b1) (s2 b1 b2) (s3 b2).
    rewrite ungroup_group3, IH. reflexivity.
Qed.

Lemma text_char_value (c : byte) (n : N) :
  is_value c n = true -> text_char c = true.
Proof.
  revert c. 
  assert (H : forall c, match value c with
                        | Some _ => text_char c
                        | None => true end = true).
  { apply for_all_bytes. vm_compute. reflexivity. }
  intros c Hc. specialize (H c). unfold is_value in Hc.
  destruct (value c); [exact H | discriminate].
Qed.

Lemma text_char_pad : text_char pad = true.
Proof. reflexivity. Qed.

Lemma b64encode_chars (s : list byte) :
  Forall (fun c => text_char c = true) (b64encode s).
Proof.
  induction s as [ | b0 | b0 b1 | b0 b1 b2 rest IH] using list_ind3.
  - constructor.
  - cbn [b64encode group1]. fold (s0 b0).
    repeat constructor;
      eauto using text_char_value, value_s0, value_tail1, text_char_pad.
  - cbn [b64encode group2]. fold (s0 b0) (s1 b0 b1).
    repeat constructor;
      eauto using text_char_value, value_s0, value_s1, value_tail2,
        text_char_pad.
  - cbn [b64encode group3 app]. fold (s0 b0) (s1 b0 b1) (s2 b1 b2) (s3 b2).
    repeat (constructor; [
      eauto using text_char_value, value_s0, value_s1, value_s2, value_s3 |]).
    exact IH.
Qed.

Lemma b64encode_length (s : list byte) :
  List.length (b64encode s) = (4 * ((List.length s + 2) / 3))%nat.
Proof.
  induction s as [ | b0 | b0 b1 | b0 b1 b2 rest IH] using list_ind3;
    try reflexivity.
  cbn [b64encode group3 app List.length]. rewrite IH.
  replace (S (S (S (List.length rest))) + 2)%nat
    with (List.length rest + 2 + 1 * 3)%nat by lia.
  rewrite Nat.div_add by lia. lia.
Qed.

(** [bytes.decode('utf-8')] keeps text of such characters as it is. *)
Lemma decode_utf8_text (s : list byte) :
  Forall (fun c => text_char c = true) s ->
  decode_utf8 s = Ok (string_of_list_byte s).
Proof.
  induction 1 as [ | c s Hc _ IH]; [reflexivity|].
  cbn [decode_utf8]. unfold text_char in Hc.
  rewrite !andb_true_iff in Hc. destruct Hc as [[[_ Hc] _] _].
  rewrite Hc, IH. reflexivity.
Qed.

Lemma decode_utf8_b64encode (s : list byte) :
  decode_utf8 (b64encode s) = Ok (string_of_list_byte (b64encode s)).
Proof. apply decode_utf8_text, b64encode_chars. Qed.

End Base64Facts.

(** ** The stages of a call *)

Section Stages.

Context {PIL : Imaging}.

Import Base64 Base64Facts.

Lemma stages_tail (r : result image) :
  (img <- r ;;
   img <- Image_convert img Mode_RGB ;;
   buffered <- Image_save_JPEG img 85 ;;
   decode_utf8 (b64encode buffered)) =
  (bytes <- (img' <- r ;;
             rgb <- Image_convert img' Mode_RGB ;;
             Image_save_JPEG rgb 85) ;;
   decode_utf8 (b64encode bytes)).
Proof.
  destruct r as [img|e]; [|reflexivity]. cbn [bind].
  destruct (Image_convert img Mode_RGB); reflexivity.
Qed.

Lemma resize_and_encode_stages fs path max_dimension :
  resize_and_encode fs path max_dimension =
  (img <- Image_open fs path ;;
   bytes <- compressed img max_dimension ;;
   decode_utf8 (b64encode bytes)).
Proof.
  unfold resize_and_encode, compressed.
  destruct (Image_open fs path) as [img|e]; [|reflexivity].
  cbn [bind]. unfold resized, target_size.
  destruct (size img) as [width height].
  rewrite stages_tail. do 2 f_equal.
  destruct (Z.max width height >? max_dimension); [|reflexivity].
  destruct (Py.truediv max_dimension (Z.max width height)) as [sf|e];
    [|reflexivity].
  cbn [bind].
  destruct (Py.mul_int_float width sf) as [wf|e]; [|reflexivity].
  cbn [bind]. destruct (Py.int wf) as [nw|e]; [|reflexivity].
  cbn [bind].
  destruct (Py.mul_int_float height sf) as [hf|e]; [|reflexivity].
  cbn [bind]. destruct (Py.int hf) as [nh|e]; reflexivity.
Qed.

(** A call returns exactly when the image opens and compresses, and then
    it returns the base64 text of the compressed stream. *)
Lemma resize_and_encode_returns fs path max_dimension text :
  resize_and_encode fs path max_dimension = Ok text <->
  exists img bytes,
    Image_open fs path = Ok img /\
    compressed img max_dimension = Ok bytes /\
    text = string_of_list_byte (b64encode bytes).
Proof.
  rewrite resize_and_encode_stages. split.
  - destruct (Image_open fs path) as [img|e]; [|discriminate].
    cbn [bind].
    destruct (compressed img max_dimension) as [bytes|e] eqn:Hc;
      [|discriminate].
    cbn [bind]. rewrite decode_utf8_b64encode. intros [= <-].
    exists img, bytes. repeat split. exact Hc.
  - intros (img & bytes & -> & Hc & ->). cbn [bind]. rewrite Hc.
    cbn [bind]. apply decode_utf8_b64encode.
Qed.

Lemma resize_and_encode_raises_open fs path max_dimension e :
  Image_open fs path = Raise e ->
  resize_and_encode fs path max_dimension = Raise e.
Proof.
  intros H. rewrite resize_and_encode_stages, H. reflexivity.
Qed.

(** What [Image.open] lets through: sides of at least 1 and no more
    than twice [MAX_IMAGE_PIXELS] pixels, so no side reaches [2 ^ 28]. *)
Lemma identified_ok (img img' : image) (w h : Z) :
  identified img = Ok img' -> size img = (w, h) ->
  img' = img /\ 1 <= w /\ 1 <= h /\ w * h <= 2 * MAX_IMAGE_PIXELS.
Proof.
  unfold identified. intros H Hs. rewrite Hs in H.
  destruct (Z.ltb_spec w 1); [discriminate|].
  destruct (Z.ltb_spec h 1); [discriminate|].
  cbn [orb] in H.
  destruct (Z.ltb_spec (2 * MAX_IMAGE_PIXELS) (w * h)); [discriminate|].
  injection H as <-. auto.
Qed.

Lemma Image_open_ok fs path (img : image) (w h : Z) :
  Image_open fs path = Ok img -> size img = (w, h) ->
  1 <= w /\ 1 <= h /\ w * h <= 2 * MAX_IMAGE_PIXELS /\
  Z.max w h < 2 ^ 28 /\ identified img = Ok img.
Proof.
  intros Ho Hs.
  assert (Hi : exists img0, identified img0 = Ok img).
  { unfold Image_open in Ho.
    destruct (fs path) as [ | | | |bytes|bytes]; try discriminate;
      destruct (decode bytes) as [img0|]; try discriminate; eauto. }
  destruct Hi as [img0 Hi]. destruct (size img0) as [w0 h0] eqn:Hs0.
  destruct (identified_ok img0 img w0 h0 Hi Hs0) as (-> & Hw & Hh & Hp).
  rewrite Hs in Hs0. injection Hs0 as <- <-.
  repeat split; auto.
  change (2 * MAX_IMAGE_PIXELS) with 178956970 in Hp.
  change (2 ^ 28) with 268435456. nia.
Qed.

(** A file that reads whole and holds an image [Image.open] lets through
    opens to that image. *)
Lemma Image_open_Content fs path bytes (img : image) :
  fs path = Content bytes -> decode bytes = Some img ->
  identified img = Ok img -> Image_open fs path = Ok img.
Proof.
  intros Hf Hd Hi. unfold Image_open. now rewrite Hf, Hd.
Qed.

Lemma Image_convert_loaded (img : image) (m : Mode) :
  load img = None -> Image_convert img m = Ok (convert img m).
Proof.
  intros H. unfold Image_convert. now rewrite H.
Qed.

Lemma Image_save_JPEG_RGB (img : image) (quality w h : Z) :
  load img = None -> mode img = Mode_RGB -> size img = (w, h) ->
  Image_save_JPEG img quality =
  if (w <? 1) || (h <? 1) then Raise ValueError
  else if (JPEG_MAX_DIMENSION <? w) || (JPEG_MAX_DIMENSION <? h)
       then Raise OSError
  else Ok (jpeg_encode img quality).
Proof.
  intros Hl Hm Hs. unfold Image_save_JPEG. rewrite Hl, Hs, Hm. reflexivity.
Qed.

(** The resize keeps what loading raises: an image that was resampled had
    loaded, and what comes out is in memory. *)
Lemma resized_load (img img' : image) (max_dimension : Z) :
  resized img max_dimension = Ok img' -> load img' = load img.
Proof.
  unfold resized. destruct (size img) as [w h].
  destruct (target_size w h max_dimension) as [[[nw nh]|]|e]; cbn [bind].
  - unfold Image_resize. destruct (load img) as [e|]; [discriminate|].
    destruct (negb (C_int nw && C_int nh)); [discriminate|].
    destruct ((nw <? 1) || (nh <? 1)); [discriminate|].
    intros [= <-]. apply load_resample.
  - now intros [= <-].
  - discriminate.
Qed.

(** After the resize: the conversion loads the pixel data if the resize
    has not, and the encoder looks at the sides. *)
Lemma compressed_of_resized (img img' : image) (max_dimension w h : Z) :
  resized img max_dimension = Ok img' -> size img' = (w, h) ->
  compressed img max_dimension =
  match load img' with
  | Some e => Raise e
  | None =>
      if (w <? 1) || (h <? 1) then Raise ValueError
      else if (JPEG_MAX_DIMENSION <? w) || (JPEG_MAX_DIMENSION <? h)
           then Raise OSError
      else Ok (jpeg_encode (convert img' Mode_RGB) 85)
  end.
Proof.
  intros Hr Hs. unfold compressed. rewrite Hr. cbn [bind].
  unfold Image_convert. destruct (load img') as [e|]; [reflexivity|].
  cbn [bind].
  apply Image_save_JPEG_RGB;
    [ apply load_convert | apply mode_convert | now rewrite size_convert ].
Qed.

(** The encoder accepts the converted raster exactly when the pixel data
    loaded and both sides are between 1 and [JPEG_MAX_DIMENSION], whatever
    the mode was. *)
Lemma compressed_returns (img : image) (max_dimension : Z) (bytes : list byte) :
  compressed img max_dimension = Ok bytes <->
  exists img' w h,
    resized img max_dimension = Ok img' /\ size img' = (w, h) /\
    1 <= w <= JPEG_MAX_DIMENSION /\ 1 <= h <= JPEG_MAX_DIMENSION /\
    bytes = jpeg_encode (convert img' Mode_RGB) 85 /\
    load img' = None.
Proof.
  split.
  - destruct (resized img max_dimension) as [img'|e] eqn:Hr;
      [|unfold compressed; rewrite Hr; discriminate].
    destruct (size img') as [w h] eqn:Hs.
    rewrite (compressed_of_resized img img' _ w h Hr Hs).
    destruct (load img') as [e|] eqn:Hl; [discriminate|].
    destruct (Z.ltb_spec w 1); [discriminate|].
    destruct (Z.ltb_spec h 1); [discriminate|].
    destruct (Z.ltb_spec JPEG_MAX_DIMENSION w); [discriminate|].
    destruct (Z.ltb_spec JPEG_MAX_DIMENSION h); [discriminate|].
    cbn [orb]. intros [= <-]. exists img', w, h. repeat split; auto.
  - intros (img' & w & h & Hr & Hs & Hw & Hh & -> & Hl).
    rewrite (compressed_of_resized img img' _ w h Hr Hs), Hl.
    destruct (Z.ltb_spec w 1); [lia|]. destruct (Z.ltb_spec h 1); [lia|].
    destruct (Z.ltb_spec JPEG_MAX_DIMENSION w); [lia|].
    destruct (Z.ltb_spec JPEG_MAX_DIMENSION h); [lia|].
    reflexivity.
Qed.

(** What the returned text decodes to. *)
Lemma output_image_text (bytes : list byte) :
  output_image (string_of_list_byte (b64encode bytes)) = decode bytes.
Proof.
  unfold output_image.
  rewrite list_byte_of_string_of_list_byte, b64decode_b64encode. reflexivity.
Qed.

Lemma output_image_compressed (img img' : image) max_dimension bytes :
  resized img max_dimension = Ok img' ->
  compressed img max_dimension = Ok bytes ->
  exists out,
    output_image (string_of_list_byte (b64encode bytes)) = Some out /\
    size out = size img' /\ mode out = Mode_RGB.
Proof.
  intros Hr Hc. apply compressed_returns in Hc.
  destruct Hc as (img2 & w & h & Hr2 & Hs & Hw & Hh & -> & _).
  rewrite Hr in Hr2. injection Hr2 as <-.
  rewrite output_image_text.
  destruct (decode_jpeg_encode (convert img' Mode_RGB) 85 w h)
    as (out & Hd & Hso & Hmo & _); auto.
  - apply mode_convert.
  - now rewrite size_convert.
  - exists out. rewrite Hs. auto.
Qed.

(** An image within the bound is not resampled. *)
Lemma resized_within (img : image) (w h max_dimension : Z) :
  size img = (w, h) -> Z.max w h <= max_dimension ->
  resized img max_dimension = Ok img.
Proof.
  intros Hs Hle. unfold resized, target_size. rewrite Hs.
  destruct (Z.gtb_spec (Z.max w h) max_dimension); [lia|]. reflexivity.
Qed.

(** An image over the bound is resampled to the computed size. *)
Lemma resized_over (img : image) (w h max_dimension nw nh : Z) :
  size img = (w, h) ->
  target_size w h max_dimension = Ok (Some (nw, nh)) ->
  resized img max_dimension = Image_resize img (nw, nh) LANCZOS.
Proof.
  intros Hs Ht. unfold resized. rewrite Hs, Ht. reflexivity.
Qed.

End Stages.

(** ** Binary64 arithmetic

    The error of one rounding, proved from the definitions of [SpecFloat]
    for results in the normal range. *)

Module Binary64.

Import Py.

Lemma digits2_pos_size (p : positive) : digits2_pos p = Pos.size p.
Proof. induction p; simpl; congruence. Qed.

Lemma Zdigits2_bounds (p : positive) :
  2 ^ (Zdigits2 (Zpos p) - 1) <= Zpos p < 2 ^ Zdigits2 (Zpos p).
Proof.
  simpl Zdigits2. rewrite digits2_pos_size.
  pose proof (Pos.size_gt p) as Hgt. pose proof (Pos.size_le p) as Hle.
  apply Pos2Z.pos_lt_pos in Hgt. apply Pos2Z.pos_le_pos in Hle.
  rewrite Pos2Z.inj_pow in Hgt, Hle.
  change (Zpos p~0) with (2 * Zpos p) in Hle.
  replace (2 ^ Zpos (Pos.size p))
    with (2 * 2 ^ (Zpos (Pos.size p) - 1)) in Hle
    by (rewrite <- Z.pow_succ_r by lia; f_equal; lia).
  lia.
Qed.

Lemma Zdigits2_unique (m d : Z) :
  2 ^ (d - 1) <= m < 2 ^ d -> 0 < d -> Zdigits2 m = d.
Proof.
  intros Hm Hd. assert (0 < m) by (pose proof (Z.pow_pos_nonneg 2 (d - 1)); lia).
  destruct m as [|p|p]; try lia.
  pose proof (Zdigits2_bounds p) as Hp.
  assert (Hdp : 0 < Zdigits2 (Zpos p)) by (simpl; lia).
  destruct (Z.lt_trichotomy (Zdigits2 (Zpos p)) d) as [Hlt | [Heq | Hgt]];
    [exfalso | exact Heq | exfalso].
  - assert (2 ^ Zdigits2 (Zpos p) <= 2 ^ (d - 1))
      by (apply Z.pow_le_mono_r; lia). lia.
  - assert (2 ^ d <= 2 ^ (Zdigits2 (Zpos p) - 1))
      by (apply Z.pow_le_mono_r; lia). lia.
Qed.

Lemma Zdigits2_pos (m : Z) : 0 < m -> 0 < Zdigits2 m.
Proof. destruct m; simpl; lia. Qed.

Lemma div_mod_double (N D : Z) :
  0 < D -> 0 <= N ->
  N / (2 * D) = (N / D) / 2 /\
  N mod (2 * D) = D * ((N / D) mod 2) + N mod D.
Proof.
  intros HD HN.
  pose proof (Z.div_mod N D) as E1. pose proof (Z.mod_pos_bound N D HD) as B1.
  pose proof (Z.div_mod (N / D) 2) as E2.
  pose proof (Z.mod_pos_bound (N / D) 2) as B2.
  assert (E : N = (2 * D) * ((N / D) / 2) + (D * ((N / D) mod 2) + N mod D))
    by nia.
  split.
  - symmetry. apply (Z.div_unique_pos N (2 * D) _ (D * ((N / D) mod 2) + N mod D));
      [nia | exact E].
  - symmetry. apply (Z.mod_unique_pos N (2 * D) ((N / D) / 2)); [nia | exact E].
Qed.

Lemma shr_1_located (N D : Z) (mrs : shr_record) :
  located N D mrs -> located N (2 * D) (shr_1 mrs).
Proof.
  intros (HD & HN & Hm & Hloc).
  destruct (div_mod_double N D HD HN) as [Ediv Emod].
  pose proof (Z.mod_pos_bound N D HD) as B1.
  assert (Hq : 0 <= N / D) by (apply Z.div_pos; lia).
  destruct mrs as [m r s]. cbn [shr_m shr_r shr_s] in Hm, Hloc. subst m.
  unfold located. rewrite Ediv, Emod.
  split; [lia|]. split; [lia|].
  destruct (N / D) as [|[p|p|]|p] eqn:Eq; try lia; simpl shr_1; cbn [shr_m shr_r shr_s].
  - split; [reflexivity|]. change (0 mod 2) with 0.
    destruct r, s; cbn [orb]; lia.
  - change (Zpos p~1) with (2 * Zpos p + 1).
    replace ((2 * Zpos p + 1) / 2) with (Zpos p)
      by (apply (Z.div_unique_pos _ 2 _ 1); lia).
    replace ((2 * Zpos p + 1) mod 2) with 1
      by (apply (Z.mod_unique_pos _ 2 (Zpos p)); lia).
    split; [reflexivity|]. destruct r, s; cbn [orb]; lia.
  - change (Zpos p~0) with (2 * Zpos p).
    replace ((2 * Zpos p) / 2) with (Zpos p)
      by (apply (Z.div_unique_pos _ 2 _ 0); lia).
    replace ((2 * Zpos p) mod 2) with 0
      by (apply (Z.mod_unique_pos _ 2 (Zpos p)); lia).
    split; [reflexivity|]. destruct r, s; cbn [orb]; lia.
  - split; [reflexivity|]. change (1 mod 2) with 1.
    destruct r, s; cbn [orb]; lia.
Qed.

Lemma iter_pos_located (n : positive) :
  forall (N D : Z) (mrs : shr_record),
  located N D mrs -> located N (D * 2 ^ Zpos n) (iter_pos shr_1 n mrs).
Proof.
  induction n as [n IH | n IH | ]; intros N D mrs H; simpl iter_pos.
  - replace (D * 2 ^ Zpos n~1) with ((2 * D) * 2 ^ Zpos n * 2 ^ Zpos n).
    + apply IH, IH, shr_1_located, H.
    + change (Zpos n~1) with (2 * Zpos n + 1).
      replace (2 * Zpos n + 1) with (1 + Zpos n + Zpos n) by lia.
      rewrite !Z.pow_add_r by lia. change (2 ^ 1) with 2. ring.
  - replace (D * 2 ^ Zpos n~0) with (D * 2 ^ Zpos n * 2 ^ Zpos n).
    + apply IH, IH, H.
    + change (Zpos n~0) with (2 * Zpos n).
      replace (2 * Zpos n) with (Zpos n + Zpos n) by lia.
      rewrite !Z.pow_add_r by lia. ring.
  - change (2 ^ 1) with 2. rewrite Z.mul_comm. apply shr_1_located, H.
Qed.

(** Shifting right by [n >= 0] places. *)
Lemma shr_located (N D : Z) (mrs : shr_record) (e n : Z) :
  located N D mrs -> 0 <= n ->
  located N (D * 2 ^ n) (fst (shr mrs e n)) /\ snd (shr mrs e n) = e + n.
Proof.
  intros H Hn. destruct n as [|p|p]; try lia; simpl shr; simpl fst; simpl snd.
  - rewrite Z.mul_1_r. split; [exact H | lia].
  - split; [apply iter_pos_located, H | reflexivity].
Qed.


Lemma fexp_normal (e : Z) : -1021 <= e -> fexp prec emax e = e - 53.
Proof. unfold fexp, emin, prec, emax. lia. Qed.

Lemma shr_m_of_loc (m : Z) (l : location) : shr_m (shr_record_of_loc m l) = m.
Proof. destruct l as [|[| |]]; reflexivity. Qed.

Lemma round_nearest_even_located (N D : Z) (mrs : shr_record) :
  located N D mrs ->
  (round_nearest_even (shr_m mrs) (loc_of_shr_record mrs) = N / D \/
   round_nearest_even (shr_m mrs) (loc_of_shr_record mrs) = N / D + 1) /\
  2 * Z.abs (round_nearest_even (shr_m mrs) (loc_of_shr_record mrs) * D - N)
  <= D.
Proof.
  intros (HD & HN & Hm & Hloc).
  pose proof (Z.div_mod N D) as E. pose proof (Z.mod_pos_bound N D HD) as B.
  destruct mrs as [m r s]. cbn [shr_m shr_r shr_s] in *. subst m.
  destruct r, s; cbn [loc_of_shr_record round_nearest_even].
  - split; [right; reflexivity | nia].
  - destruct (Z.even (N / D)); (split; [auto | nia]).
  - split; [left; reflexivity | nia].
  - split; [left; reflexivity | nia].
Qed.

(** One rounding to nearest, for a result in the normal range: the
    mantissa has 53 bits and the result is within half a unit in the last
    place of [N / D * 2 ^ ex]. *)
Lemma binary_round_aux_correct
  (sx : bool) (mx ex : Z) (lx : location) (N D : Z) :
  located N D (shr_record_of_loc mx lx) ->
  53 <= Zdigits2 mx -> -1021 <= Zdigits2 mx + ex -> Zdigits2 mx + ex <= 1023 ->
  exists m e,
    binary_round_aux prec emax sx mx ex lx = S754_finite sx m e /\
    2 ^ 52 <= Zpos m < 2 ^ 53 /\
    (e = ex + Zdigits2 mx - 53 \/ e = ex + Zdigits2 mx - 52) /\
    2 * Z.abs (Zpos m * 2 ^ (e - ex) * D - N) <= D * 2 ^ (Zdigits2 mx - 53) /\
    2 ^ 52 * (D * 2 ^ (Zdigits2 mx - 53)) <= N.
Proof.
  intros Hloc Hd Hlo Hhi.
  set (d := Zdigits2 mx) in *. set (n := d - 53).
  assert (Hn : 0 <= n) by (unfold n; lia).
  assert (Hmx : mx = N / D)
    by (destruct Hloc as (_ & _ & H & _); now rewrite shr_m_of_loc in H).
  assert (HD : 0 < D) by apply Hloc. assert (HN : 0 <= N) by apply Hloc.
  assert (Hmx0 : 0 < mx).
  { assert (0 <= mx) by (rewrite Hmx; apply Z.div_pos; lia).
    destruct mx; [ now subst d | lia | lia ]. }
  assert (Hbits : 2 ^ (d - 1) <= mx < 2 ^ d).
  { destruct mx as [|p|p]; try lia. apply Zdigits2_bounds. }
  assert (Hpn : 0 < 2 ^ n) by (apply Z.pow_pos_nonneg; lia).
  assert (E52 : 2 ^ (d - 1) = 2 ^ 52 * 2 ^ n)
    by (rewrite <- Z.pow_add_r by lia; f_equal; unfold n; lia).
  assert (E53 : 2 ^ d = 2 ^ 53 * 2 ^ n)
    by (rewrite <- Z.pow_add_r by lia; f_equal; unfold n; lia).
  (* the first shift *)
  unfold binary_round_aux, shr_fexp. fold d.
  rewrite fexp_normal by lia.
  replace (d + ex - 53 - ex) with n by (unfold n; lia).
  destruct (shr_located N D _ ex n Hloc Hn) as [Hloc1 He1].
  destruct (shr (shr_record_of_loc mx lx) ex n) as [mrs1 e1].
  cbn [fst snd] in Hloc1, He1. subst e1.
  assert (Hm1 : shr_m mrs1 = N / (D * 2 ^ n)) by apply Hloc1.
  assert (Hm1b : 2 ^ 52 <= N / (D * 2 ^ n) < 2 ^ 53).
  { rewrite <- Z.div_div by lia. rewrite <- Hmx. split.
    - apply Z.div_le_lower_bound; lia.
    - apply Z.div_lt_upper_bound; lia. }
  (* the rounding *)
  destruct (round_nearest_even_located N (D * 2 ^ n) mrs1 Hloc1)
    as [Hm2 Herr].
  set (m2 := round_nearest_even (shr_m mrs1) (loc_of_shr_record mrs1)) in *.
  assert (Hlow : 2 ^ 52 * (D * 2 ^ n) <= N).
  { pose proof (Z.mul_div_le N (D * 2 ^ n)) as H. nia. }
  assert (Hm2b : 2 ^ 52 <= m2 <= 2 ^ 53) by lia.
  (* the second shift *)
  destruct (Z.eq_dec m2 (2 ^ 53)) as [Etop | Ntop].
  - rewrite Etop. change (Zdigits2 (2 ^ 53)) with 54.
    rewrite fexp_normal by lia.
    replace (54 + (ex + n) - 53 - (ex + n)) with 1 by lia.
    cbn [shr_record_of_loc shr iter_pos].
    change (shr_1 {| shr_m := 2 ^ 53; shr_r := false; shr_s := false |})
      with {| shr_m := 2 ^ 52; shr_r := false; shr_s := false |}.
    cbn [shr_m]. change (2 ^ 52) with (Zpos (2 ^ 52)%positive) at 1.
    cbv iota.
    destruct (Z.leb_spec (ex + n + 1) (emax - prec));
      [ | unfold emax, prec in *; lia ].
    exists (2 ^ 52)%positive, (ex + n + 1).
    split; [reflexivity|]. split; [change (Zpos (2 ^ 52)) with (2 ^ 52); lia|].
    split; [unfold n; lia|]. split; [|exact Hlow].
    replace (ex + n + 1 - ex) with (1 + n) by lia.
    rewrite Z.pow_add_r by lia.
    replace (Zpos (2 ^ 52) * (2 ^ 1 * 2 ^ n) * D) with (m2 * (D * 2 ^ n))
      by (rewrite Etop; change (Zpos (2 ^ 52)) with (2 ^ 52); ring).
    exact Herr.
  - assert (Hd2 : Zdigits2 m2 = 53) by (apply Zdigits2_unique; lia).
    rewrite Hd2. rewrite fexp_normal by lia.
    replace (53 + (ex + n) - 53 - (ex + n)) with 0 by lia.
    cbn [shr_record_of_loc shr fst snd shr_m].
    destruct m2 as [|p|p] eqn:Ep; try lia.
    destruct (Z.leb_spec (ex + n) (emax - prec));
      [ | unfold emax, prec in *; lia ].
    exists p, (ex + n).
    split; [reflexivity|]. split; [lia|].
    split; [unfold n; lia|]. split; [|exact Hlow].
    replace (ex + n - ex) with n by lia.
    replace (Zpos p * 2 ^ n * D) with (Zpos p * (D * 2 ^ n)) by ring.
    exact Herr.
Qed.



Lemma new_location_located (N D : Z) :
  0 < D -> 0 <= N ->
  located N D (shr_record_of_loc (N / D) (new_location D (N mod D))).
Proof.
  intros HD HN. pose proof (Z.mod_pos_bound N D HD) as B.
  unfold located. rewrite shr_m_of_loc.
  split; [exact HD|]. split; [exact HN|]. split; [reflexivity|].
  unfold new_location. destruct (Z.even D) eqn:Ev.
  - unfold new_location_even. destruct (Z.eqb_spec (N mod D) 0) as [E0|N0].
    + exact E0.
    + destruct (Z.compare_spec (2 * (N mod D)) D); cbn [shr_record_of_loc shr_r shr_s]; lia.
  - assert (Hodd : exists k, D = 2 * k + 1)
      by (apply Z.odd_spec; rewrite <- Z.negb_even, Ev; reflexivity).
    destruct Hodd as [k Hk].
    unfold new_location_odd. destruct (Z.eqb_spec (N mod D) 0) as [E0|N0].
    + exact E0.
    + destruct (Z.compare_spec (2 * (N mod D) + 1) D); cbn [shr_record_of_loc shr_r shr_s]; lia.
Qed.

Lemma Zdigits2_le (a b : Z) : 0 < a <= b -> Zdigits2 a <= Zdigits2 b.
Proof.
  intros H. destruct a as [|pa|pa]; try lia. destruct b as [|pb|pb]; try lia.
  pose proof (Zdigits2_bounds pa) as Ba. pose proof (Zdigits2_bounds pb) as Bb.
  destruct (Z.le_gt_cases (Zdigits2 (Zpos pa)) (Zdigits2 (Zpos pb))) as [|Hgt];
    [assumption|exfalso].
  assert (2 ^ Zdigits2 (Zpos pb) <= 2 ^ (Zdigits2 (Zpos pa) - 1))
    by (apply Z.pow_le_mono_r; lia).
  lia.
Qed.

Lemma Zdigits2_lt_pow (a k : Z) : 0 < a < 2 ^ k -> 0 <= k -> Zdigits2 a <= k.
Proof.
  intros H Hk. destruct a as [|pa|pa]; try lia.
  pose proof (Zdigits2_bounds pa) as Ba.
  destruct (Z.le_gt_cases (Zdigits2 (Zpos pa)) k) as [|Hgt];
    [assumption|exfalso].
  assert (2 ^ k <= 2 ^ (Zdigits2 (Zpos pa) - 1))
    by (apply Z.pow_le_mono_r; lia).
  lia.
Qed.

Lemma Zdigits2_ge_pow (a k : Z) : 2 ^ k <= a -> 0 <= k -> k + 1 <= Zdigits2 a.
Proof.
  intros H Hk. assert (0 < 2 ^ k) by (apply Z.pow_pos_nonneg; lia).
  destruct a as [|pa|pa]; try lia.
  pose proof (Zdigits2_bounds pa) as Ba.
  destruct (Z.le_gt_cases (k + 1) (Zdigits2 (Zpos pa))) as [|Hgt];
    [assumption|exfalso].
  assert (2 ^ Zdigits2 (Zpos pa) <= 2 ^ k)
    by (apply Z.pow_le_mono_r; lia).
  lia.
Qed.

(** [a / b] for ints [0 < a < b]: a float with a 53-bit mantissa within
    a relative error of [2 ^ -53] of the quotient. *)
Lemma truediv_correct (a b : Z) :
  0 < a < b -> b < 2 ^ 1000 ->
  exists m e,
    truediv a b = Ok (S754_finite false m e) /\
    2 ^ 52 <= Zpos m < 2 ^ 53 /\
    -1052 <= e < 0 /\
    2 ^ 53 * Z.abs (Zpos m * b - a * 2 ^ (- e)) <= a * 2 ^ (- e).
Proof.
  intros Hab Hb. unfold truediv.
  destruct (Z.eqb_spec b 0); [lia|].
  destruct a as [|pa|pa]; try lia. destruct b as [|pb|pb]; try lia.
  cbn [exact SFdiv]. unfold SFdiv_core_binary.
  set (d1 := Zdigits2 (Zpos pa)). set (d2 := Zdigits2 (Zpos pb)).
  assert (Hd1 : 1 <= d1) by (pose proof (Zdigits2_pos (Zpos pa)); lia).
  assert (Hd12 : d1 <= d2) by (apply Zdigits2_le; lia).
  assert (Hd2 : d2 <= 1000) by (apply Zdigits2_lt_pow; lia).
  pose proof (Zdigits2_bounds pa) as Ba. pose proof (Zdigits2_bounds pb) as Bb.
  fold d1 in Ba. fold d2 in Bb.
  rewrite !Z.add_0_r. rewrite fexp_normal by lia.
  change (0 - 0) with 0.
  replace (Z.min (d1 - d2 - 53) 0) with (d1 - d2 - 53) by lia.
  set (s := 0 - (d1 - d2 - 53)).
  assert (Hs : s = 53 + d2 - d1) by (unfold s; lia).
  assert (Hshift :
    match s with
    | 0 => Zpos pa
    | Zpos _ => Z.shiftl (Zpos pa) s
    | Zneg _ => 0
    end = Zpos pa * 2 ^ s).
  { destruct s eqn:Es; try lia. apply Z.shiftl_mul_pow2. lia. }
  rewrite Hshift. clear Hshift.
  set (N := Zpos pa * 2 ^ s).
  assert (Hps : 0 < 2 ^ s) by (apply Z.pow_pos_nonneg; lia).
  assert (HN : 0 <= N) by (unfold N; lia).
  pose proof (Z.div_eucl_eq N (Zpos pb)) as Heucl.
  assert (Hq : fst (Z.div_eucl N (Zpos pb)) = N / Zpos pb) by reflexivity.
  assert (Hr : snd (Z.div_eucl N (Zpos pb)) = N mod Zpos pb) by reflexivity.
  destruct (Z.div_eucl N (Zpos pb)) as [q r]. cbn [fst snd] in Hq, Hr.
  subst q r. clear Heucl.
  (* the quotient has 53 or 54 bits *)
  assert (Hlo : 2 ^ 52 <= N / Zpos pb).
  { apply Z.div_le_lower_bound; [lia|].
    assert (2 ^ (d1 - 1) * 2 ^ s = 2 ^ 52 * 2 ^ d2)
      by (rewrite <- !Z.pow_add_r by lia; f_equal; lia).
    unfold N. nia. }
  assert (Hhi : N / Zpos pb < 2 ^ 54).
  { apply Z.div_lt_upper_bound; [lia|].
    assert (2 ^ d1 * 2 ^ s = 2 ^ 54 * 2 ^ (d2 - 1))
      by (rewrite <- !Z.pow_add_r by lia; f_equal; lia).
    unfold N. nia. }
  assert (Hdq1 : 53 <= Zdigits2 (N / Zpos pb))
    by (apply (Zdigits2_ge_pow _ 52); lia).
  assert (Hdq2 : Zdigits2 (N / Zpos pb) <= 54)
    by (apply Zdigits2_lt_pow; lia).
  destruct (binary_round_aux_correct (xorb false false) (N / Zpos pb)
              (d1 - d2 - 53) (new_location (Zpos pb) (N mod Zpos pb))
              N (Zpos pb))
    as (m & e & Hres & Hm & He & Herr & Hlow);
    [ apply new_location_located; lia | lia | lia | lia | ].
  rewrite Hres. cbn [xorb finite_or_overflow].
  exists m, e. split; [reflexivity|]. split; [exact Hm|].
  split; [lia|].
  (* from the scale of the quotient to the scale of the result *)
  set (k := e - (d1 - d2 - 53)) in *.
  assert (Hk : 0 <= k) by (unfold k; lia).
  assert (Hpk : 0 < 2 ^ k) by (apply Z.pow_pos_nonneg; lia).
  assert (Hpe : 0 < 2 ^ (- e)) by (apply Z.pow_pos_nonneg; lia).
  assert (Esplit : 2 ^ s = 2 ^ k * 2 ^ (- e))
    by (rewrite <- Z.pow_add_r by lia; f_equal; unfold k; lia).
  assert (Hfac : Zpos m * 2 ^ k * Zpos pb - N
                 = 2 ^ k * (Zpos m * Zpos pb - Zpos pa * 2 ^ (- e)))
    by (unfold N; rewrite Esplit; ring).
  rewrite Hfac, Z.abs_mul, (Z.abs_eq (2 ^ k)) in Herr by lia.
  assert (HN2 : N = 2 ^ k * (Zpos pa * 2 ^ (- e)))
    by (unfold N; rewrite Esplit; ring).
  set (X := Z.abs (Zpos m * Zpos pb - Zpos pa * 2 ^ (- e))) in *.
  set (Y := Zpos pa * 2 ^ (- e)) in *.
  set (U := Zpos pb * 2 ^ (Zdigits2 (N / Zpos pb) - 53)) in *.
  assert (2 ^ k * (2 ^ 53 * X) <= 2 ^ k * Y) by (change (2 ^ 53) with (2 * 2 ^ 52); nia).
  apply Z.mul_le_mono_pos_l in H; assumption.
Qed.


Lemma Pos_iter_xO (p k : positive) :
  Zpos (Pos.iter xO p k) = Zpos p * 2 ^ Zpos k.
Proof.
  induction k as [|k IH] using Pos.peano_ind.
  - cbn [Pos.iter]. change (2 ^ 1) with 2. lia.
  - rewrite Pos.iter_succ, Pos2Z.inj_succ, Z.pow_succ_r by lia.
    change (Zpos (Pos.iter xO p k)~0) with (2 * Zpos (Pos.iter xO p k)).
    rewrite IH. ring.
Qed.

Lemma located_exact (m : Z) :
  0 <= m -> located m 1 (shr_record_of_loc m loc_Exact).
Proof.
  intros H. unfold located. cbn [shr_record_of_loc shr_m shr_r shr_s].
  rewrite Z.div_1_r, Z.mod_1_r. lia.
Qed.

(** [float(w)] for [0 < w < 2 ^ 53] is [w] itself. *)
Lemma float_of_int_exact (w : Z) :
  0 < w < 2 ^ 53 ->
  exists m e,
    float_of_int w = Ok (S754_finite false m e) /\
    2 ^ 52 <= Zpos m < 2 ^ 53 /\ -52 <= e <= 0 /\
    Zpos m = w * 2 ^ (- e).
Proof.
  intros Hw. destruct w as [|p|p]; try lia.
  unfold float_of_int, binary_normalize, binary_round.
  pose proof (Zdigits2_bounds p) as Bp.
  pose proof (Zdigits2_pos (Zpos p) ltac:(lia)) as Hd1.
  pose proof (Zdigits2_lt_pow (Zpos p) 53 ltac:(lia) ltac:(lia)) as Hd2.
  change (Zpos (digits2_pos p)) with (Zdigits2 (Zpos p)).
  set (d := Zdigits2 (Zpos p)) in *.
  rewrite Z.add_0_r, fexp_normal by lia.
  (* the aligned mantissa *)
  assert (Hal : exists mz, shl_align p 0 (d - 53) = (mz, d - 53) /\
                           Zpos mz = Zpos p * 2 ^ (53 - d)).
  { unfold shl_align. destruct (d - 53 - 0) as [|k|k] eqn:Ek; try lia.
    - exists p. replace d with 53 by lia. split; [reflexivity|].
      change (2 ^ (53 - 53)) with 1. lia.
    - exists (Pos.iter xO p k). split; [reflexivity|].
      rewrite Pos_iter_xO. f_equal. f_equal. lia. }
  destruct Hal as (mz & -> & Hmz).
  assert (E52 : 2 ^ (d - 1) * 2 ^ (53 - d) = 2 ^ 52)
    by (rewrite <- Z.pow_add_r by lia; f_equal; lia).
  assert (E53 : 2 ^ d * 2 ^ (53 - d) = 2 ^ 53)
    by (rewrite <- Z.pow_add_r by lia; f_equal; lia).
  assert (Hp2 : 0 < 2 ^ (53 - d)) by (apply Z.pow_pos_nonneg; lia).
  assert (Hmzb : 2 ^ 52 <= Zpos mz < 2 ^ 53) by nia.
  assert (Hdz : Zdigits2 (Zpos mz) = 53) by (apply Zdigits2_unique; lia).
  destruct (binary_round_aux_correct false (Zpos mz) (d - 53) loc_Exact
              (Zpos mz) 1)
    as (m & e & Hres & Hm & He & Herr & _);
    [ apply located_exact; lia | lia | lia | lia | ].
  rewrite Hres. cbn [finite_or_overflow]. exists m, e.
  split; [reflexivity|]. split; [exact Hm|].
  rewrite Hdz in He, Herr. change (2 ^ (53 - 53)) with 1 in Herr.
  assert (Ee : e = d - 53).
  { destruct He as [He|He]; [lia|exfalso].
    replace (e - (d - 53)) with 1 in Herr by lia.
    change (2 ^ 1) with 2 in Herr. lia. }
  subst e. replace (d - 53 - (d - 53)) with 0 in Herr by lia.
  change (2 ^ 0) with 1 in Herr.
  split; [lia|]. replace (- (d - 53)) with (53 - d) by lia. lia.
Qed.

(** The product of two positive floats, for a result in the normal range. *)
Lemma SFmul_correct (mx my : positive) (ex ey : Z) :
  2 ^ 52 <= Zpos mx < 2 ^ 53 -> 2 ^ 52 <= Zpos my < 2 ^ 53 ->
  -1126 <= ex + ey -> ex + ey <= 917 ->
  exists m e,
    SFmul prec emax (S754_finite false mx ex) (S754_finite false my ey)
    = S754_finite false m e /\
    2 ^ 52 <= Zpos m < 2 ^ 53 /\
    ex + ey + 52 <= e <= ex + ey + 54 /\
    2 ^ 53 * Z.abs (Zpos m * 2 ^ (e - (ex + ey)) - Zpos mx * Zpos my)
    <= Zpos mx * Zpos my.
Proof.
  intros Hx Hy Hlo Hhi. cbn [SFmul xorb].
  change (Zpos (mx * my)) with (Zpos mx * Zpos my).
  set (N := Zpos mx * Zpos my).
  assert (HNlo : 2 ^ 104 <= N)
    by (unfold N; change (2 ^ 104) with (2 ^ 52 * 2 ^ 52); nia).
  assert (HNhi : N < 2 ^ 106)
    by (unfold N; change (2 ^ 106) with (2 ^ 53 * 2 ^ 53); nia).
  assert (Hd1 : 105 <= Zdigits2 N) by (apply (Zdigits2_ge_pow _ 104); lia).
  assert (Hd2 : Zdigits2 N <= 106) by (apply Zdigits2_lt_pow; lia).
  destruct (binary_round_aux_correct false N (ex + ey) loc_Exact N 1)
    as (m & e & Hres & Hm & He & Herr & Hlow);
    [ apply located_exact; lia | lia | lia | lia | ].
  exists m, e. split; [exact Hres|]. split; [exact Hm|]. split; [lia|].
  rewrite !Z.mul_1_r in Herr. rewrite Z.mul_1_l in Hlow.
  change (2 ^ 53) with (2 * 2 ^ 52). lia.
Qed.

Lemma int_spec (m : positive) (e : Z) :
  int (S754_finite false m e) =
  Ok (if e <? 0 then Zpos m / 2 ^ (- e) else Zpos m * 2 ^ e).
Proof.
  unfold int. f_equal. destruct e as [|k|k].
  - change (2 ^ 0) with 1. rewrite Z.shiftl_0_r. cbn [Z.ltb Z.compare]. lia.
  - rewrite Z.shiftl_mul_pow2 by lia. reflexivity.
  - rewrite Z.shiftr_div_pow2 by lia. reflexivity.
Qed.

(** [int(x)] is the integer part of [x], stated at any scale [2 ^ k] that
    makes the value of [x] an integer. *)
Lemma int_bounds (m : positive) (e k : Z) :
  0 <= k -> 0 <= k + e ->
  exists t,
    int (S754_finite false m e) = Ok t /\ 0 <= t /\
    t * 2 ^ k <= Zpos m * 2 ^ (k + e) < (t + 1) * 2 ^ k.
Proof.
  intros Hk Hke. rewrite int_spec. eexists. split; [reflexivity|].
  assert (Hp1 : 0 < 2 ^ (k + e)) by (apply Z.pow_pos_nonneg; lia).
  destruct (Z.ltb_spec e 0) as [Hneg|Hpos].
  - assert (Hp2 : 0 < 2 ^ (- e)) by (apply Z.pow_pos_nonneg; lia).
    assert (Ek : 2 ^ k = 2 ^ (k + e) * 2 ^ (- e))
      by (rewrite <- Z.pow_add_r by lia; f_equal; lia).
    pose proof (Z.mul_div_le (Zpos m) (2 ^ (- e)) Hp2) as H1.
    pose proof (Z.mul_succ_div_gt (Zpos m) (2 ^ (- e)) Hp2) as H2.
    assert (0 <= Zpos m / 2 ^ (- e)) by (apply Z.div_pos; lia).
    rewrite Ek. split; [assumption|]. nia.
  - assert (Hp2 : 0 < 2 ^ e) by (apply Z.pow_pos_nonneg; lia).
    assert (Hp3 : 0 < 2 ^ k) by (apply Z.pow_pos_nonneg; lia).
    rewrite Z.pow_add_r by lia. split; [nia|]. nia.
Qed.


(** One side of the target size: [int(w * scale_factor)] where
    [scale_factor] is within [2 ^ -53] of [b / M].  The result [t] is the
    integer part of a float within [(1 + 2 ^ -53) ^ 2] of [w * b / M]. *)
Lemma scaled_side (w b M : Z) (ms : positive) (es : Z) :
  0 < b -> 0 < M -> 0 < w < 2 ^ 53 ->
  2 ^ 52 <= Zpos ms < 2 ^ 53 -> -1052 <= es < 0 ->
  2 ^ 53 * Z.abs (Zpos ms * M - b * 2 ^ (- es)) <= b * 2 ^ (- es) ->
  exists x t,
    mul_int_float w (S754_finite false ms es) = Ok x /\ int x = Ok t /\
    0 <= t /\
    2 ^ 106 * (t * M) <= (2 ^ 53 + 1) ^ 2 * (w * b) /\
    (2 ^ 53 - 1) ^ 2 * (w * b) < 2 ^ 106 * ((t + 1) * M).
Proof.
  intros Hb HM Hw Hms Hes HA.
  destruct (float_of_int_exact w Hw) as (mw & ew & Ef & Hmw & Hew & Emw).
  unfold mul_int_float. rewrite Ef. cbn [bind].
  destruct (SFmul_correct mw ms ew es Hmw Hms) as (mp & ep & Em & Hmp & Hep & HB);
    [lia | lia |].
  rewrite Em.
  destruct (int_bounds mp ep (- (ew + es))) as (t & Et & Ht0 & HC);
    [lia | lia |].
  exists (S754_finite false mp ep), t.
  split; [reflexivity|]. split; [exact Et|]. split; [exact Ht0|].
  replace (- (ew + es) + ep) with (ep - (ew + es)) in HC by lia.
  assert (ET : 2 ^ (- (ew + es)) = 2 ^ (- ew) * 2 ^ (- es))
    by (rewrite <- Z.pow_add_r by lia; f_equal; lia).
  rewrite ET in HC.
  assert (HP : 0 < 2 ^ (- es)) by (apply Z.pow_pos_nonneg; lia).
  assert (HQ : 0 < 2 ^ (- ew)) by (apply Z.pow_pos_nonneg; lia).
  assert (HR : 0 < 2 ^ (ep - (ew + es))) by (apply Z.pow_pos_nonneg; lia).
  set (P := 2 ^ (- es)) in *. set (Q := 2 ^ (- ew)) in *.
  set (R := 2 ^ (ep - (ew + es))) in *.
  change (2 ^ 106) with (2 ^ 53 * 2 ^ 53).
  change ((2 ^ 53 + 1) ^ 2) with ((2 ^ 53 + 1) * (2 ^ 53 + 1)).
  change ((2 ^ 53 - 1) ^ 2) with ((2 ^ 53 - 1) * (2 ^ 53 - 1)).
  set (a := Zpos mp * R) in *. set (c := Zpos ms * M) in *.
  assert (HB1 : 2 ^ 53 * a <= (2 ^ 53 + 1) * (Zpos mw * Zpos ms)) by lia.
  assert (HB2 : (2 ^ 53 - 1) * (Zpos mw * Zpos ms) <= 2 ^ 53 * a) by lia.
  assert (HA1 : 2 ^ 53 * c <= (2 ^ 53 + 1) * (b * P)) by lia.
  assert (HA2 : (2 ^ 53 - 1) * (b * P) <= 2 ^ 53 * c) by lia.
  assert (Hc0 : 0 < c) by (unfold c; lia).
  clear HA HB Hms Hmp Hmw Hes Hew Hep Ef Em Et ET.
  assert (HU : 1 < 2 ^ 53) by reflexivity.
  set (U := 2 ^ 53) in *. clearbody U.
  rewrite Emw in HB1, HB2.
  assert (HbP : 0 < b * P) by nia.
  assert (HwQ : 0 < w * Q) by nia.
  split.
  - (* upper *)
    assert (S1 : U * U * (t * (Q * P)) * M <= U * U * a * M).
    { apply Z.mul_le_mono_nonneg_r; [lia|].
      apply Z.mul_le_mono_nonneg_l; [nia | lia]. }
    assert (S2 : U * U * a * M <= (U + 1) * (U + 1) * (w * b) * (Q * P)).
    { assert (T1 : U * (U * a) * M <= U * ((U + 1) * (w * Q * Zpos ms)) * M).
      { apply Z.mul_le_mono_nonneg_r; [lia|].
        apply Z.mul_le_mono_nonneg_l; [lia | exact HB1]. }
      assert (T2 : (U + 1) * (w * Q) * (U * c)
                   <= (U + 1) * (w * Q) * ((U + 1) * (b * P))).
      { apply Z.mul_le_mono_nonneg_l; [nia | exact HA1]. }
      unfold c in T2.
      replace (U * U * a * M) with (U * (U * a) * M) by ring.
      replace ((U + 1) * (U + 1) * (w * b) * (Q * P))
        with ((U + 1) * (w * Q) * ((U + 1) * (b * P))) by ring.
      replace (U * ((U + 1) * (w * Q * Zpos ms)) * M)
        with ((U + 1) * (w * Q) * (U * (Zpos ms * M))) in T1 by ring.
      lia. }
    assert (S3 : (U * U * (t * M)) * (Q * P)
                 <= ((U + 1) * (U + 1) * (w * b)) * (Q * P)).
    { replace (U * U * (t * M) * (Q * P))
        with (U * U * (t * (Q * P)) * M) by ring. lia. }
    apply Z.mul_le_mono_pos_r in S3; [exact S3 | nia].
  - (* lower *)
    assert (S1 : U * U * a * M < U * U * ((t + 1) * (Q * P)) * M).
    { apply Z.mul_lt_mono_pos_r; [lia|].
      apply Z.mul_lt_mono_pos_l; [nia | lia]. }
    assert (S2 : (U - 1) * (U - 1) * (w * b) * (Q * P) <= U * U * a * M).
    { assert (T1 : U * ((U - 1) * (w * Q * Zpos ms)) * M <= U * (U * a) * M).
      { apply Z.mul_le_mono_nonneg_r; [lia|].
        apply Z.mul_le_mono_nonneg_l; [lia | exact HB2]. }
      assert (T2 : (U - 1) * (w * Q) * ((U - 1) * (b * P))
                   <= (U - 1) * (w * Q) * (U * c)).
      { apply Z.mul_le_mono_nonneg_l; [nia | exact HA2]. }
      unfold c in T2.
      replace (U * U * a * M) with (U * (U * a) * M) by ring.
      replace ((U - 1) * (U - 1) * (w * b) * (Q * P))
        with ((U - 1) * (w * Q) * ((U - 1) * (b * P))) by ring.
      replace (U * ((U - 1) * (w * Q * Zpos ms)) * M)
        with ((U - 1) * (w * Q) * (U * (Zpos ms * M))) in T1 by ring.
      lia. }
    assert (S3 : ((U - 1) * (U - 1) * (w * b)) * (Q * P)
                 < (U * U * ((t + 1) * M)) * (Q * P)).
    { replace (U * U * ((t + 1) * M) * (Q * P))
        with (U * U * ((t + 1) * (Q * P)) * M) by ring. lia. }
    apply Z.mul_lt_mono_pos_r in S3; [exact S3 | nia].
Qed.

Lemma new_location_scale (D r K : Z) :
  0 < D -> 0 <= r < D -> 0 < K ->
  new_location (D * K) (r * K) = new_location D r.
Proof.
  intros HD Hr HK. unfold new_location.
  assert (E0 : (r * K =? 0) = (r =? 0)).
  { destruct (Z.eqb_spec r 0) as [->|Hn]; [reflexivity|].
    apply Z.eqb_neq. nia. }
  assert (Ecmp : (2 * (r * K) ?= D * K) = (2 * r ?= D)).
  { replace (2 * (r * K)) with (2 * r * K) by ring.
    symmetry. apply Zmult_compare_compat_r. lia. }
  destruct (Z.even D) eqn:EvD.
  - rewrite Z.even_mul, EvD. cbn [orb]. unfold new_location_even.
    now rewrite E0, Ecmp.
  - assert (Hodd : exists k, D = 2 * k + 1)
      by (apply Z.odd_spec; rewrite <- Z.negb_even, EvD; reflexivity).
    destruct Hodd as [k Hk].
    destruct (Z.even (D * K)); unfold new_location_even, new_location_odd;
      rewrite E0; destruct (Z.eqb_spec r 0) as [E|E]; try reflexivity.
    + rewrite Ecmp.
      destruct (Z.compare_spec (2 * r) D);
        destruct (Z.compare_spec (2 * r + 1) D); try reflexivity; lia.
    + destruct (Z.compare_spec (2 * (r * K) + 1) (D * K));
        destruct (Z.compare_spec (2 * r + 1) D); try reflexivity; nia.
Qed.

(** For operands below [2 ^ 53], where CPython divides the two converted
    doubles in hardware, [truediv] is that quotient. *)
Lemma truediv_hardware (a b : Z) :
  0 < a < b -> b < 2 ^ 53 ->
  truediv a b =
  (fa <- float_of_int a ;; fb <- float_of_int b ;;
   finite_or_overflow (SFdiv prec emax fa fb)).
Proof.
  intros Hab Hb.
  destruct (float_of_int_exact a) as (ma & ea & Efa & Hma & Hea & Ema); [lia|].
  destruct (float_of_int_exact b) as (mb & eb & Efb & Hmb & Heb & Emb); [lia|].
  rewrite Efa, Efb. cbn [bind]. unfold truediv.
  destruct (Z.eqb_spec b 0); [lia|]. f_equal.
  destruct a as [|pa|pa]; try lia. destruct b as [|pb|pb]; try lia.
  cbn [exact SFdiv]. f_equal.
  unfold SFdiv_core_binary.
  set (da := Zdigits2 (Zpos pa)). set (db := Zdigits2 (Zpos pb)).
  pose proof (Zdigits2_bounds pa) as Ba. pose proof (Zdigits2_bounds pb) as Bb.
  fold da in Ba. fold db in Bb.
  assert (Hda : 1 <= da) by (pose proof (Zdigits2_pos (Zpos pa)); lia).
  assert (Hdab : da <= db) by (apply Zdigits2_le; lia).
  assert (Hdb : db <= 53) by (apply Zdigits2_lt_pow; lia).
  assert (HKa : 0 < 2 ^ (- ea)) by (apply Z.pow_pos_nonneg; lia).
  assert (HKb : 0 < 2 ^ (- eb)) by (apply Z.pow_pos_nonneg; lia).
  (* the exponents of the converted operands *)
  assert (Eea : ea = da - 53).
  { assert (E : Zdigits2 (Zpos ma) = da - ea).
    { apply Zdigits2_unique; [|lia]. rewrite Ema.
      replace (2 ^ (da - ea - 1)) with (2 ^ (da - 1) * 2 ^ (- ea))
        by (rewrite <- Z.pow_add_r by lia; f_equal; lia).
      replace (2 ^ (da - ea)) with (2 ^ da * 2 ^ (- ea))
        by (rewrite <- Z.pow_add_r by lia; f_equal; lia).
      nia. }
    rewrite (Zdigits2_unique (Zpos ma) 53) in E by lia. lia. }
  assert (Eeb : eb = db - 53).
  { assert (E : Zdigits2 (Zpos mb) = db - eb).
    { apply Zdigits2_unique; [|lia]. rewrite Emb.
      replace (2 ^ (db - eb - 1)) with (2 ^ (db - 1) * 2 ^ (- eb))
        by (rewrite <- Z.pow_add_r by lia; f_equal; lia).
      replace (2 ^ (db - eb)) with (2 ^ db * 2 ^ (- eb))
        by (rewrite <- Z.pow_add_r by lia; f_equal; lia).
      nia. }
    rewrite (Zdigits2_unique (Zpos mb) 53) in E by lia. lia. }
  rewrite (Zdigits2_unique (Zpos ma) 53), (Zdigits2_unique (Zpos mb) 53) by lia.
  rewrite !Z.add_0_r. change (0 - 0) with 0.
  replace (53 + ea - (53 + eb)) with (da - db) by lia.
  replace (ea - eb) with (da - db) by lia.
  rewrite fexp_normal by lia.
  replace (Z.min (da - db - 53) 0) with (da - db - 53) by lia.
  replace (Z.min (da - db - 53) (da - db)) with (da - db - 53) by lia.
  replace (da - db - (da - db - 53)) with 53 by lia.
  set (s := 0 - (da - db - 53)).
  assert (Hs : s = 53 + db - da) by (unfold s; lia).
  assert (Hshift :
    match s with
    | 0 => Zpos pa
    | Zpos _ => Z.shiftl (Zpos pa) s
    | Zneg _ => 0
    end = Zpos pa * 2 ^ s).
  { destruct s eqn:Es; try lia. apply Z.shiftl_mul_pow2. lia. }
  rewrite Hshift. clear Hshift. cbv iota.
  rewrite Z.shiftl_mul_pow2 by lia.
  set (N := Zpos pa * 2 ^ s). set (K := 2 ^ (- eb)) in *.
  assert (EN : Zpos ma * 2 ^ 53 = N * K).
  { unfold N, K. rewrite Ema.
    rewrite <- !Z.mul_assoc, <- !Z.pow_add_r by lia. do 2 f_equal. lia. }
  rewrite EN, Emb.
  assert (HN : 0 <= N)
    by (unfold N; assert (0 < 2 ^ s) by (apply Z.pow_pos_nonneg; lia); lia).
  assert (Eq : (N * K) / (Zpos pb * K) = N / Zpos pb)
    by (apply Z.div_mul_cancel_r; lia).
  assert (Er : (N * K) mod (Zpos pb * K) = (N mod Zpos pb) * K)
    by (apply Z.mul_mod_distr_r; lia).
  pose proof (Z.mod_pos_bound N (Zpos pb) ltac:(lia)) as Hr.
  rewrite (surjective_pairing (Z.div_eucl N (Zpos pb))).
  rewrite (surjective_pairing (Z.div_eucl (N * K) (Zpos pb * K))).
  change (fst (Z.div_eucl N (Zpos pb))) with (N / Zpos pb).
  change (snd (Z.div_eucl N (Zpos pb))) with (N mod Zpos pb).
  change (fst (Z.div_eucl (N * K) (Zpos pb * K)))
    with ((N * K) / (Zpos pb * K)).
  change (snd (Z.div_eucl (N * K) (Zpos pb * K)))
    with ((N * K) mod (Zpos pb * K)).
  rewrite Eq, Er, new_location_scale by lia. reflexivity.
Qed.

End Binary64.

(** ** The target size *)

Section TargetSize.

Import Py Binary64.

Lemma proportional_le (side new_side b M : Z) :
  proportional side new_side b M ->
  0 < M -> 0 < b < 2 ^ 52 -> 0 < side <= M -> new_side <= b.
Proof.
  intros [Hup _] HM Hb Hs.
  change (2 ^ 106) with (2 ^ 53 * 2 ^ 53) in Hup.
  change ((2 ^ 53 + 1) ^ 2) with (2 ^ 53 * 2 ^ 53 + (2 ^ 54 + 1)) in Hup.
  assert (H1 : side * b <= M * b) by nia.
  assert (H2 : 2 ^ 53 * 2 ^ 53 * (new_side * M)
               <= (2 ^ 53 * 2 ^ 53 + (2 ^ 54 + 1)) * (M * b)) by lia.
  assert (H3 : (2 ^ 54 + 1) * b < 2 ^ 53 * 2 ^ 53) by lia.
  assert (H4 : M * (2 ^ 53 * 2 ^ 53 * new_side)
               < M * (2 ^ 53 * 2 ^ 53 * (b + 1))) by nia.
  apply Z.mul_lt_mono_pos_l in H4; lia.
Qed.

Lemma proportional_longest (new_side b M : Z) :
  proportional M new_side b M ->
  0 < M -> 0 < b < 2 ^ 52 -> b - 1 <= new_side.
Proof.
  intros [_ Hlo] HM Hb.
  change (2 ^ 106) with (2 ^ 53 * 2 ^ 53) in Hlo.
  change ((2 ^ 53 - 1) ^ 2) with (2 ^ 53 * 2 ^ 53 - (2 ^ 54 - 1)) in Hlo.
  assert (H3 : (2 ^ 54 - 1) * b < 2 ^ 53 * 2 ^ 53) by lia.
  assert (H4 : M * (2 ^ 53 * 2 ^ 53 * (b - 1))
               < M * (2 ^ 53 * 2 ^ 53 * (new_side + 1))) by nia.
  apply Z.mul_lt_mono_pos_l in H4; lia.
Qed.

Lemma proportional_shrinks (side new_side b M : Z) :
  proportional side new_side b M ->
  0 < b < M -> M < 2 ^ 52 -> 0 < side -> new_side < side.
Proof.
  intros [Hup _] Hb HM Hs.
  change (2 ^ 106) with (2 ^ 53 * 2 ^ 53) in Hup.
  change ((2 ^ 53 + 1) ^ 2) with (2 ^ 53 * 2 ^ 53 + (2 ^ 54 + 1)) in Hup.
  destruct (Z.lt_ge_cases new_side side) as [|Hge]; [assumption|exfalso].
  assert (H1 : side * b <= side * (M - 1)) by nia.
  assert (H2 : side * M <= new_side * M) by nia.
  assert (H3 : 2 ^ 53 * 2 ^ 53 * (side * M)
               <= (2 ^ 53 * 2 ^ 53 + (2 ^ 54 + 1)) * (side * (M - 1))) by lia.
  assert (H4 : (2 ^ 54 + 1) * (M - 1) < 2 ^ 53 * 2 ^ 53) by lia.
  assert (H5 : side * (2 ^ 53 * 2 ^ 53 * M)
               <= side * ((2 ^ 53 * 2 ^ 53 + (2 ^ 54 + 1)) * (M - 1))) by lia.
  apply Z.mul_le_mono_pos_l in H5; lia.
Qed.


Lemma proportional_floor (side new_side b M : Z) :
  proportional side new_side b M ->
  0 < M -> 0 < side -> 0 < b -> side * b < 2 ^ 52 ->
  M * new_side <= side * b <= M * (new_side + 1).
Proof.
  intros [Hup Hlo] HM Hs Hb Hsb.
  change (2 ^ 106) with (2 ^ 53 * 2 ^ 53) in *.
  change ((2 ^ 53 + 1) ^ 2) with (2 ^ 53 * 2 ^ 53 + (2 ^ 54 + 1)) in Hup.
  change ((2 ^ 53 - 1) ^ 2) with (2 ^ 53 * 2 ^ 53 - (2 ^ 54 - 1)) in Hlo.
  set (x := side * b) in *. set (y := new_side * M) in *.
  set (z := (new_side + 1) * M) in *.
  replace (M * new_side) with y by (unfold y; ring).
  replace (M * (new_side + 1)) with z by (unfold z; ring).
  lia.
Qed.

(** The size computed for an image over the bound (lines 15 to 17). *)
Lemma target_size_over (w h b : Z) :
  1 <= w -> 1 <= h -> 1 <= b < Z.max w h -> Z.max w h < 2 ^ 52 ->
  exists scale_factor wf hf nw nh,
    truediv b (Z.max w h) = Ok scale_factor /\
    mul_int_float w scale_factor = Ok wf /\ int wf = Ok nw /\
    mul_int_float h scale_factor = Ok hf /\ int hf = Ok nh /\
    target_size w h b = Ok (Some (nw, nh)) /\
    0 <= nw /\ 0 <= nh /\
    proportional w nw b (Z.max w h) /\
    proportional h nh b (Z.max w h).
Proof.
  intros Hw Hh Hb HM. unfold target_size.
  destruct (Z.gtb_spec (Z.max w h) b); [|lia].
  destruct (truediv_correct b (Z.max w h)) as (ms & es & Esf & Hms & Hes & HA);
    [lia | lia |].
  rewrite Esf. cbn [bind].
  destruct (scaled_side w b (Z.max w h) ms es) as (xw & nw & Exw & Enw & Hnw & Hpw);
    try lia.
  destruct (scaled_side h b (Z.max w h) ms es) as (xh & nh & Exh & Enh & Hnh & Hph);
    try lia.
  rewrite Exw. cbn [bind]. rewrite Enw. cbn [bind].
  rewrite Exh. cbn [bind]. rewrite Enh. cbn [bind].
  exists (S754_finite false ms es), xw, xh, nw, nh.
  unfold proportional. repeat split; auto; tauto.
Qed.

(** *** A bound that is zero or negative *)

Lemma binary_round_aux_signed (sx : bool) (mx ex : Z) (lx : location) :
  signed sx (binary_round_aux prec emax sx mx ex lx).
Proof.
  unfold binary_round_aux.
  destruct (shr_fexp prec emax mx ex lx) as [mrs1 e1].
  destruct (shr_fexp prec emax _ e1 loc_Exact) as [mrs2 e2].
  destruct (shr_m mrs2); cbn [signed]; auto.
  destruct (e2 <=? emax - prec); reflexivity.
Qed.

Lemma finite_or_overflow_signed (s : bool) (x : float) :
  signed s x ->
  match finite_or_overflow x with
  | Ok y => if s then not_above_zero y else not_below_zero y
  | Raise e => e = OverflowError
  end.
Proof.
  destruct x as [sx|sx| |sx m e]; destruct s; cbn; auto.
Qed.

Lemma truediv_nonpositive (a b : Z) :
  a <= 0 -> 0 < b ->
  match truediv a b with
  | Ok x => not_above_zero x
  | Raise e => e = OverflowError
  end.
Proof.
  intros Ha Hb. unfold truediv. destruct (Z.eqb_spec b 0); [lia|].
  destruct b as [|pb|pb]; try lia. destruct a as [|pa|pa]; try lia.
  - exact I.
  - cbn [exact SFdiv].
    destruct (SFdiv_core_binary prec emax (Zpos pa) 0 (Zpos pb) 0)
      as [[mz ez] lz].
    apply (finite_or_overflow_signed true), binary_round_aux_signed.
Qed.

Lemma float_of_int_positive (w : Z) :
  0 < w ->
  match float_of_int w with
  | Ok x => not_below_zero x
  | Raise e => e = OverflowError
  end.
Proof.
  intros Hw. destruct w as [|p|p]; try lia.
  unfold float_of_int, binary_normalize, binary_round.
  destruct (shl_align p 0 _) as [mz ez].
  apply (finite_or_overflow_signed false), binary_round_aux_signed.
Qed.

Lemma SFmul_not_above_zero (x y : float) :
  not_below_zero x -> not_above_zero y -> signed true (SFmul prec emax x y).
Proof.
  destruct x as [sx|sx| |sx mx ex]; destruct y as [sy|sy| |sy my ey];
    cbn [not_below_zero not_above_zero SFmul signed]; try tauto.
  intros -> ->. apply binary_round_aux_signed.
Qed.

Lemma int_signed_true (x : float) :
  signed true x ->
  match int x with
  | Ok t => t <= 0
  | Raise e => e = ValueError \/ e = OverflowError
  end.
Proof.
  destruct x as [sx|sx| |sx m e]; cbn [signed int]; auto; try lia.
  intros ->.
  assert (0 <= match e with
               | Zneg k => Z.shiftr (Zpos m) (Zpos k)
               | _ => Z.shiftl (Zpos m) e
               end).
  { destruct e; [apply Z.shiftl_nonneg | apply Z.shiftl_nonneg
                | apply Z.shiftr_nonneg]; lia. }
  lia.
Qed.

Lemma scaled_side_nonpositive (w : Z) (sf : float) :
  0 < w -> not_above_zero sf ->
  match (x <- mul_int_float w sf ;; int x) with
  | Ok t => t <= 0
  | Raise e => e = ValueError \/ e = OverflowError
  end.
Proof.
  intros Hw Hsf. unfold mul_int_float.
  pose proof (float_of_int_positive w Hw) as Hf.
  destruct (float_of_int w) as [fw|e]; cbn [bind]; [|auto].
  apply int_signed_true, SFmul_not_above_zero; assumption.
Qed.

(** With a bound of zero or less every image of positive size is over the
    bound, and the size computed for it has no positive side. *)
Lemma target_size_nonpositive (w h b : Z) :
  1 <= w -> 1 <= h -> b <= 0 ->
  match target_size w h b with
  | Ok (Some (nw, nh)) => nw <= 0 /\ nh <= 0
  | Ok None => False
  | Raise e => e = ValueError \/ e = OverflowError
  end.
Proof.
  intros Hw Hh Hb. unfold target_size.
  destruct (Z.gtb_spec (Z.max w h) b); [|lia].
  pose proof (truediv_nonpositive b (Z.max w h) Hb ltac:(lia)) as Hsf.
  destruct (truediv b (Z.max w h)) as [sf|e]; cbn [bind]; [|auto].
  pose proof (scaled_side_nonpositive w sf ltac:(lia) Hsf) as H1.
  pose proof (scaled_side_nonpositive h sf ltac:(lia) Hsf) as H2.
  destruct (mul_int_float w sf) as [xw|e]; cbn [bind] in *; [|auto].
  destruct (int xw) as [nw|e]; cbn [bind]; [|auto].
  destruct (mul_int_float h sf) as [xh|e]; cbn [bind] in *; [|auto].
  destruct (int xh) as [nh|e]; cbn [bind]; auto.
Qed.

Lemma target_size_zero (w h : Z) :
  1 <= w < 2 ^ 53 -> 1 <= h < 2 ^ 53 ->
  target_size w h 0 = Ok (Some (0, 0)).
Proof.
  intros Hw Hh. unfold target_size.
  destruct (Z.gtb_spec (Z.max w h) 0); [|lia].
  unfold truediv. destruct (Z.eqb_spec (Z.max w h) 0); [lia|].
  destruct (Z.max w h) as [|pm|pm] eqn:EM; try lia.
  cbn [exact SFdiv xorb finite_or_overflow bind].
  destruct (float_of_int_exact w) as (mw & ew & Ew & _); [lia|].
  destruct (float_of_int_exact h) as (mh & eh & Eh & _); [lia|].
  unfold mul_int_float. rewrite Ew, Eh. reflexivity.
Qed.

End TargetSize.

(** ** The properties of the specification *)

Section Claims.

Context {PIL : Imaging}.

Import Base64 Base64Facts.

Lemma resize_and_encode_raises_compressed fs path max_dimension img e :
  Image_open fs path = Ok img -> compressed img max_dimension = Raise e ->
  resize_and_encode fs path max_dimension = Raise e.
Proof.
  intros Ho Hc. rewrite resize_and_encode_stages, Ho. cbn [bind].
  rewrite Hc. reflexivity.
Qed.

Lemma resize_and_encode_raises_resized fs path max_dimension img e :
  Image_open fs path = Ok img -> resized img max_dimension = Raise e ->
  resize_and_encode fs path max_dimension = Raise e.
Proof.
  intros Ho Hr. apply (resize_and_encode_raises_compressed _ _ _ img); [exact Ho|].
  unfold compressed. rewrite Hr. reflexivity.
Qed.

Lemma Image_resize_load_fails (img : image) (sz : Z * Z) (f : Resampling) e :
  load img = Some e -> Image_resize img sz f = Raise e.
Proof.
  intros Hl. unfold Image_resize. destruct sz. now rewrite Hl.
Qed.

Lemma Image_resize_loaded (img : image) (nw nh : Z) (f : Resampling) :
  load img = None ->
  Image_resize img (nw, nh) f =
  match resize_failure nw nh with
  | Some e => Raise e
  | None => Ok (resample img (nw, nh) f)
  end.
Proof.
  intros Hl. unfold Image_resize, resize_failure. rewrite Hl.
  destruct (negb (C_int nw && C_int nh)); [reflexivity|].
  destruct ((nw <? 1) || (nh <? 1)); reflexivity.
Qed.

Lemma C_int_spec (n : Z) : C_int n = true <-> - 2 ^ 31 <= n < 2 ^ 31.
Proof.
  unfold C_int. rewrite andb_true_iff, Z.leb_le, Z.ltb_lt. tauto.
Qed.

(** A size with a side below 1 is refused: by the conversion to C when a
    side does not fit an [int], by the resize otherwise. *)
Lemma Image_resize_rejects (img : image) (nw nh : Z) (f : Resampling) :
  load img = None -> nw < 1 \/ nh < 1 ->
  Image_resize img (nw, nh) f
  = Raise (if C_int nw && C_int nh then ValueError else OverflowError).
Proof.
  intros Hl H. rewrite Image_resize_loaded by assumption.
  unfold resize_failure.
  destruct (C_int nw && C_int nh); cbn [negb]; [|reflexivity].
  destruct (Z.ltb_spec nw 1); [reflexivity|].
  destruct (Z.ltb_spec nh 1); [reflexivity|]. lia.
Qed.

Lemma Image_resize_accepts (img : image) (nw nh : Z) (f : Resampling) :
  load img = None -> 1 <= nw < 2 ^ 31 -> 1 <= nh < 2 ^ 31 ->
  Image_resize img (nw, nh) f = Ok (resample img (nw, nh) f) /\
  size (resample img (nw, nh) f) = (nw, nh).
Proof.
  intros Hl Hw Hh. rewrite Image_resize_loaded by assumption.
  unfold resize_failure.
  assert (E1 : C_int nw = true) by (apply C_int_spec; lia).
  assert (E2 : C_int nh = true) by (apply C_int_spec; lia).
  rewrite E1, E2. cbn [andb negb].
  destruct (Z.ltb_spec nw 1); [lia|]. destruct (Z.ltb_spec nh 1); [lia|].
  split; [reflexivity | apply size_resample; lia].
Qed.

(** With a bound of at least 1 the size arithmetic does not raise. *)
Lemma target_size_returns (w h max_dimension : Z) :
  1 <= w -> 1 <= h -> Z.max w h < 2 ^ 52 -> 1 <= max_dimension ->
  exists sz, target_size w h max_dimension = Ok sz.
Proof.
  intros Hw Hh HM Hb.
  destruct (Z.le_gt_cases (Z.max w h) max_dimension) as [Hin|Hover].
  - exists None. unfold target_size.
    destruct (Z.gtb_spec (Z.max w h) max_dimension); [lia|reflexivity].
  - destruct (target_size_over w h max_dimension Hw Hh ltac:(lia) HM)
      as (sf & wf & hf & nw & nh & _ & _ & _ & _ & _ & Et & _).
    eauto.
Qed.

(** Pixel data that does not load: the call raises what loading raises,
    at the resize or at the conversion, once the size arithmetic is
    through. *)
Lemma load_failure_raises fs path max_dimension img w h e sz :
  Image_open fs path = Ok img -> size img = (w, h) -> load img = Some e ->
  target_size w h max_dimension = Ok sz ->
  resize_and_encode fs path max_dimension = Raise e.
Proof.
  intros Ho Hs Hl Et. destruct sz as [[nw nh]|].
  - apply (resize_and_encode_raises_resized _ _ _ img); [exact Ho|].
    rewrite (resized_over img w h _ nw nh Hs Et).
    now apply Image_resize_load_fails.
  - apply (resize_and_encode_raises_compressed _ _ _ img); [exact Ho|].
    assert (Hr : resized img max_dimension = Ok img)
      by (unfold resized; rewrite Hs, Et; reflexivity).
    rewrite (compressed_of_resized img img _ w h Hr Hs), Hl. reflexivity.
Qed.

(** A call on an open image whose resampled or untouched raster has
    loaded and has sides the encoder takes returns text of that size. *)
Lemma resize_and_encode_size fs path max_dimension img img' w h :
  Image_open fs path = Ok img -> resized img max_dimension = Ok img' ->
  load img' = None -> size img' = (w, h) ->
  1 <= w <= JPEG_MAX_DIMENSION -> 1 <= h <= JPEG_MAX_DIMENSION ->
  exists text out,
    resize_and_encode fs path max_dimension = Ok text /\
    output_image text = Some out /\ size out = (w, h) /\
    mode out = Mode_RGB.
Proof.
  intros Ho Hr Hl Hs Hw Hh.
  assert (Hc : compressed img max_dimension
               = Ok (jpeg_encode (convert img' Mode_RGB) 85))
    by (apply compressed_returns; exists img', w, h; repeat split; auto; lia).
  destruct (output_image_compressed img img' max_dimension _ Hr Hc)
    as (out & Hout & Hso & Hmo).
  exists (string_of_list_byte (b64encode (jpeg_encode (convert img' Mode_RGB) 85))),
    out.
  split; [ apply resize_and_encode_returns; eauto | ].
  split; [exact Hout|]. split; [congruence | exact Hmo].
Qed.

(** The same raster with a side the encoder does not write. *)
Lemma resize_and_encode_oversize fs path max_dimension img img' w h :
  Image_open fs path = Ok img -> resized img max_dimension = Ok img' ->
  load img' = None -> size img' = (w, h) -> 1 <= w -> 1 <= h ->
  JPEG_MAX_DIMENSION < w \/ JPEG_MAX_DIMENSION < h ->
  resize_and_encode fs path max_dimension = Raise OSError.
Proof.
  intros Ho Hr Hl Hs Hw Hh Hbig.
  apply (resize_and_encode_raises_compressed _ _ _ img); [exact Ho|].
  rewrite (compressed_of_resized img img' _ w h Hr Hs), Hl.
  destruct (Z.ltb_spec w 1); [lia|]. destruct (Z.ltb_spec h 1); [lia|].
  cbn [orb].
  destruct (Z.ltb_spec JPEG_MAX_DIMENSION w); [reflexivity|].
  destruct (Z.ltb_spec JPEG_MAX_DIMENSION h); [reflexivity|]. lia.
Qed.

(** The size and mode of what any returned text decodes to. *)
Lemma resize_and_encode_output fs path max_dimension text :
  resize_and_encode fs path max_dimension = Ok text ->
  exists img img' out,
    Image_open fs path = Ok img /\ resized img max_dimension = Ok img' /\
    output_image text = Some out /\ size out = size img' /\
    mode out = Mode_RGB.
Proof.
  intros H. apply resize_and_encode_returns in H.
  destruct H as (img & bytes & Ho & Hc & ->).
  pose proof Hc as Hc'. apply compressed_returns in Hc'.
  destruct Hc' as (img' & w & h & Hr & _).
  destruct (output_image_compressed img img' max_dimension bytes Hr Hc)
    as (out & Hout & Hso & Hmo).
  exists img, img', out. auto.
Qed.

(** A second pass over a stream that came back: when the raster of the
    first pass was within the bound, the second pass returns text of the
    same size. *)
Lemma normalize_again fs path max_dimension img img' w h bytes :
  resized img max_dimension = Ok img' -> size img' = (w, h) ->
  Z.max w h <= max_dimension -> w * h <= 2 * MAX_IMAGE_PIXELS ->
  compressed img max_dimension = Ok bytes ->
  fs path = Content bytes ->
  exists text out,
    resize_and_encode fs path max_dimension = Ok text /\
    output_image text = Some out /\ size out = (w, h).
Proof.
  intros Hr Hs Hle Hpx Hc Hf.
  apply compressed_returns in Hc.
  destruct Hc as (img2 & w2 & h2 & Hr2 & Hs2 & Hw & Hh & -> & _).
  rewrite Hr in Hr2. injection Hr2 as <-.
  rewrite Hs in Hs2. injection Hs2 as <- <-.
  destruct (decode_jpeg_encode (convert img' Mode_RGB) 85 w h)
    as (out & Hd & Hso & Hmo & Hlo);
    [ apply mode_convert | now rewrite size_convert | lia | lia | ].
  assert (Hi : identified out = Ok out).
  { unfold identified. rewrite Hso.
    destruct (Z.ltb_spec w 1); [lia|]. destruct (Z.ltb_spec h 1); [lia|].
    cbn [orb].
    destruct (Z.ltb_spec (2 * MAX_IMAGE_PIXELS) (w * h)); [lia|reflexivity]. }
  pose proof (Image_open_Content fs path _ out Hf Hd Hi) as Ho.
  pose proof (resized_within out w h max_dimension Hso Hle) as Hr2.
  destruct (resize_and_encode_size fs path max_dimension out out w h)
    as (text' & out' & Ht' & Hout' & Hso' & _); auto.
  exists text', out'. auto.
Qed.

(** C1, as amended.  For an image that opens with its longest side
    [max(W, H)] over a bound of at least 1, the raster is resampled with
    LANCZOS to [new_width = int(W * scale_factor)] and
    [new_height = int(H * scale_factor)], truncated toward zero and not
    rounded, where [scale_factor] is the double nearest
    [max_dimension / max(W, H)].  Each new side is the integer part of a
    number within a relative [2 ^ -51] of [side * max_dimension / max(W, H)];
    so no side is over the bound, the longest is the bound or one less, and
    for sides up to [2 ^ 26] each new side [n] has
    [n <= side * max_dimension / max(W, H) <= n + 1].  When both new sides
    are at least 1, the bound is at most 65500, the largest side the JPEG
    encoder writes, and the pixel data loads, the text returned decodes to
    an image of exactly that size; with a new side over 65500 the call
    raises [OSError] instead.  A 4000 x 3000 image at bound 2048 gives
    2048 x 1536. *)
Theorem resize_truncates fs path max_dimension img w h :
  Image_open fs path = Ok img -> size img = (w, h) ->
  1 <= max_dimension < Z.max w h ->
  exists scale_factor wf hf new_width new_height,
    Py.truediv max_dimension (Z.max w h) = Ok scale_factor /\
    Py.mul_int_float w scale_factor = Ok wf /\ Py.int wf = Ok new_width /\
    Py.mul_int_float h scale_factor = Ok hf /\ Py.int hf = Ok new_height /\
    resized img max_dimension
    = Image_resize img (new_width, new_height) LANCZOS /\
    proportional w new_width max_dimension (Z.max w h) /\
    proportional h new_height max_dimension (Z.max w h) /\
    0 <= new_width <= max_dimension /\
    0 <= new_height <= max_dimension /\
    max_dimension - 1 <= Z.max new_width new_height /\
    (Z.max w h <= 2 ^ 26 ->
     Z.max w h * new_width <= w * max_dimension
       <= Z.max w h * (new_width + 1) /\
     Z.max w h * new_height <= h * max_dimension
       <= Z.max w h * (new_height + 1)) /\
    (1 <= new_width -> 1 <= new_height ->
     max_dimension <= JPEG_MAX_DIMENSION -> load img = None ->
     exists text out,
       resize_and_encode fs path max_dimension = Ok text /\
       output_image text = Some out /\
       size out = (new_width, new_height)) /\
    (1 <= new_width -> 1 <= new_height -> load img = None ->
     JPEG_MAX_DIMENSION < new_width \/ JPEG_MAX_DIMENSION < new_height ->
     resize_and_encode fs path max_dimension = Raise OSError) /\
    (w = 4000 -> h = 3000 -> max_dimension = 2048 ->
     new_width = 2048 /\ new_height = 1536).
Proof.
  intros Ho Hs Hb.
  destruct (Image_open_ok fs path img w h Ho Hs) as (Hw & Hh & _ & H28 & _).
  assert (HM : Z.max w h < 2 ^ 52) by lia.
  destruct (target_size_over w h max_dimension Hw Hh Hb HM)
    as (sf & wf & hf & nw & nh & Esf & Ewf & Enw & Ehf & Enh & Et
        & Hnw & Hnh & Hpw & Hph).
  exists sf, wf, hf, nw, nh.
  assert (Hr : resized img max_dimension = Image_resize img (nw, nh) LANCZOS)
    by (apply (resized_over img w h); assumption).
  assert (Hwb : nw <= max_dimension)
    by (apply (proportional_le w nw max_dimension (Z.max w h)); auto; lia).
  assert (Hhb : nh <= max_dimension)
    by (apply (proportional_le h nh max_dimension (Z.max w h)); auto; lia).
  assert (Hlong : max_dimension - 1 <= Z.max nw nh).
  { destruct (Z.max_spec w h) as [[_ EM] | [_ EM]].
    - assert (max_dimension - 1 <= nh); [|lia].
      apply (proportional_longest nh max_dimension (Z.max w h)); try lia.
      rewrite EM in *. exact Hph.
    - assert (max_dimension - 1 <= nw); [|lia].
      apply (proportional_longest nw max_dimension (Z.max w h)); try lia.
      rewrite EM in *. exact Hpw. }
  repeat (split; [assumption || lia |]).
  split; [ | split; [ | split ] ].
  - intros H26.
    assert (w * max_dimension < 2 ^ 52)
      by (change (2 ^ 52) with (2 ^ 26 * 2 ^ 26); nia).
    assert (h * max_dimension < 2 ^ 52)
      by (change (2 ^ 52) with (2 ^ 26 * 2 ^ 26); nia).
    split; apply proportional_floor; auto; lia.
  - intros H1 H2 HJ Hl.
    destruct (Image_resize_accepts img nw nh LANCZOS Hl) as [Era Esz];
      [lia | lia |].
    rewrite Era in Hr.
    destruct (resize_and_encode_size fs path max_dimension img _ nw nh Ho Hr)
      as (text & out & Ht & Hout & Hso & _);
      [apply load_resample | exact Esz | lia | lia |].
    exists text, out. auto.
  - intros H1 H2 Hl Hbig.
    destruct (Image_resize_accepts img nw nh LANCZOS Hl) as [Era Esz];
      [lia | lia |].
    rewrite Era in Hr.
    apply (resize_and_encode_oversize fs path max_dimension img _ nw nh Ho Hr);
      auto using load_resample.
  - intros -> -> ->. vm_compute in Et. injection Et as <- <-. auto.
Qed.

(** C2.  An image with [max(W, H) <= max_dimension], the bound itself
    included, is not resampled: any text returned decodes to an image of
    the size of the input, and with sides the encoder takes text is
    returned whenever the pixel data loads; when it does not load, the
    call raises what loading raises. *)
Theorem no_upscaling fs path max_dimension img w h :
  Image_open fs path = Ok img -> size img = (w, h) ->
  Z.max w h <= max_dimension ->
  resized img max_dimension = Ok img /\
  (forall text,
     resize_and_encode fs path max_dimension = Ok text ->
     exists out, output_image text = Some out /\ size out = (w, h)) /\
  (1 <= w <= JPEG_MAX_DIMENSION -> 1 <= h <= JPEG_MAX_DIMENSION ->
   match load img with
   | None => exists text, resize_and_encode fs path max_dimension = Ok text
   | Some e => resize_and_encode fs path max_dimension = Raise e
   end).
Proof.
  intros Ho Hs Hle.
  pose proof (resized_within img w h max_dimension Hs Hle) as Hr.
  split; [exact Hr|]. split.
  - intros text Ht.
    destruct (resize_and_encode_output _ _ _ _ Ht)
      as (img1 & img' & out & Ho1 & Hr1 & Hout & Hso & _).
    rewrite Ho in Ho1. injection Ho1 as <-.
    rewrite Hr in Hr1. injection Hr1 as <-.
    exists out. split; [exact Hout | congruence].
  - intros Hw Hh. destruct (load img) as [e|] eqn:Hl.
    + apply (resize_and_encode_raises_compressed _ _ _ img); [exact Ho|].
      rewrite (compressed_of_resized img img _ w h Hr Hs), Hl. reflexivity.
    + destruct (resize_and_encode_size fs path max_dimension img img w h)
        as (text & _ & Ht & _); auto.
      exists text. exact Ht.
Qed.

(** C3, as amended.  With [max_dimension <= 0] nothing is checked before
    the transform.  The source is opened first, and what opening raises is
    what the call raises.  When the source opens, the call never returns:
    it goes on to compute a target size with no positive side (0 x 0 for a
    bound of 0) and the resize raises, what loading the pixel data raises
    if that fails, else [OverflowError] when a side is below the least C
    [int], else the [ValueError] of a side that is not above 0; or the
    float arithmetic raises its [ValueError] or [OverflowError] on the way
    there. *)
Theorem nonpositive_bound_unchecked fs path max_dimension :
  max_dimension <= 0 ->
  (forall e, Image_open fs path = Raise e ->
             resize_and_encode fs path max_dimension = Raise e) /\
  (forall img w h,
     Image_open fs path = Ok img -> size img = (w, h) ->
     (exists e, resize_and_encode fs path max_dimension = Raise e) /\
     (forall e,
        target_size w h max_dimension = Raise e ->
        resize_and_encode fs path max_dimension = Raise e /\
        (e = ValueError \/ e = OverflowError)) /\
     (forall nw nh,
        target_size w h max_dimension = Ok (Some (nw, nh)) ->
        nw <= 0 /\ nh <= 0 /\
        resized img max_dimension = Image_resize img (nw, nh) LANCZOS /\
        resize_and_encode fs path max_dimension
        = Raise match load img with
                | Some e => e
                | None => if C_int nw && C_int nh then ValueError
                          else OverflowError
                end) /\
     (max_dimension = 0 ->
      target_size w h max_dimension = Ok (Some (0, 0)) /\
      (load img = None ->
       resize_and_encode fs path max_dimension = Raise ValueError))).
Proof.
  intros Hb. split; [intros e; apply resize_and_encode_raises_open|].
  intros img w h Ho Hs.
  destruct (Image_open_ok fs path img w h Ho Hs) as (Hw & Hh & _ & H28 & _).
  pose proof (target_size_nonpositive w h max_dimension Hw Hh Hb) as Ht.
  assert (Hraise : forall e,
            target_size w h max_dimension = Raise e ->
            resize_and_encode fs path max_dimension = Raise e /\
            (e = ValueError \/ e = OverflowError)).
  { intros e E. rewrite E in Ht. split; [|exact Ht].
    apply (resize_and_encode_raises_resized _ _ _ img); [exact Ho|].
    unfold resized. rewrite Hs, E. reflexivity. }
  assert (Hsome : forall nw nh,
            target_size w h max_dimension = Ok (Some (nw, nh)) ->
            nw <= 0 /\ nh <= 0 /\
            resized img max_dimension = Image_resize img (nw, nh) LANCZOS /\
            resize_and_encode fs path max_dimension
            = Raise match load img with
                    | Some e => e
                    | None => if C_int nw && C_int nh then ValueError
                              else OverflowError
                    end).
  { intros nw nh E. rewrite E in Ht. destruct Ht as [H1 H2].
    pose proof (resized_over img w h max_dimension nw nh Hs E) as Hr.
    repeat (split; [assumption|]).
    apply (resize_and_encode_raises_resized _ _ _ img); [exact Ho|].
    rewrite Hr. destruct (load img) as [e|] eqn:Hl.
    - now apply Image_resize_load_fails.
    - apply Image_resize_rejects; [exact Hl | lia]. }
  split; [|split; [exact Hraise|split; [exact Hsome|]]].
  - destruct (target_size w h max_dimension) as [[[nw nh]|]|e] eqn:E.
    + destruct (Hsome nw nh eq_refl) as (_ & _ & _ & Hc). eauto.
    + contradiction.
    + destruct (Hraise e eq_refl) as [Hc _]. eauto.
  - intros ->.
    pose proof (target_size_zero w h ltac:(lia) ltac:(lia)) as E.
    split; [exact E|]. intros Hl.
    destruct (Hsome 0 0 E) as (_ & _ & _ & Hc).
    rewrite Hl in Hc. exact Hc.
Qed.

(** C4, as amended.  Bytes in which no plugin identifies an image make
    the call raise [UnidentifiedImageError] at [Image.open], whatever the
    bound, and so does a header with a side below 1; a header with more
    than twice [MAX_IMAGE_PIXELS] pixels makes it raise
    [DecompressionBombError].  A file that is identified and whose pixel
    data does not load, a file cut short for one, opens; the call then
    never returns: it raises what loading raises, at the resize or at the
    conversion, and with a bound of at least 1 nothing else.  Only the size
    arithmetic, which comes first, can raise before the load. *)
Theorem undecodable_source_raises fs path max_dimension :
  (forall bytes,
     fs path = Content bytes \/ fs path = Faulty bytes ->
     decode bytes = None ->
     resize_and_encode fs path max_dimension
     = Raise UnidentifiedImageError) /\
  (forall bytes img w h,
     fs path = Content bytes -> decode bytes = Some img ->
     size img = (w, h) ->
     (w < 1 \/ h < 1 ->
      resize_and_encode fs path max_dimension
      = Raise UnidentifiedImageError) /\
     (1 <= w -> 1 <= h -> 2 * MAX_IMAGE_PIXELS < w * h ->
      resize_and_encode fs path max_dimension
      = Raise DecompressionBombError)) /\
  (forall img w h e,
     Image_open fs path = Ok img -> size img = (w, h) ->
     load img = Some e ->
     (exists e', resize_and_encode fs path max_dimension = Raise e') /\
     (forall e',
        target_size w h max_dimension = Raise e' ->
        resize_and_encode fs path max_dimension = Raise e') /\
     (forall sz,
        target_size w h max_dimension = Ok sz ->
        resize_and_encode fs path max_dimension = Raise e) /\
     (1 <= max_dimension ->
      resize_and_encode fs path max_dimension = Raise e)).
Proof.
  split; [|split].
  - intros bytes Hf Hd. apply resize_and_encode_raises_open.
    unfold Image_open. destruct Hf as [Hf|Hf]; now rewrite Hf, Hd.
  - intros bytes img w h Hf Hd Hs. split.
    + intros Hside. apply resize_and_encode_raises_open.
      unfold Image_open, identified. rewrite Hf, Hd, Hs.
      destruct (Z.ltb_spec w 1); [reflexivity|].
      destruct (Z.ltb_spec h 1); [reflexivity|]. lia.
    + intros Hw Hh Hpx. apply resize_and_encode_raises_open.
      unfold Image_open, identified. rewrite Hf, Hd, Hs.
      destruct (Z.ltb_spec w 1); [lia|].
      destruct (Z.ltb_spec h 1); [lia|]. cbn [orb].
      destruct (Z.ltb_spec (2 * MAX_IMAGE_PIXELS) (w * h)); [reflexivity|lia].
  - intros img w h e Ho Hs Hl.
    destruct (Image_open_ok fs path img w h Ho Hs) as (Hw & Hh & _ & H28 & _).
    assert (Hraise : forall e',
              target_size w h max_dimension = Raise e' ->
              resize_and_encode fs path max_dimension = Raise e').
    { intros e' E. apply (resize_and_encode_raises_resized _ _ _ img);
        [exact Ho|]. unfold resized. rewrite Hs, E. reflexivity. }
    assert (Hok : forall sz,
              target_size w h max_dimension = Ok sz ->
              resize_and_encode fs path max_dimension = Raise e)
      by (intros sz; now apply (load_failure_raises fs path _ img w h)).
    split; [|split; [exact Hraise|split; [exact Hok|]]].
    + destruct (target_size w h max_dimension) as [sz|e'] eqn:E; eauto.
    + intros Hb.
      destruct (target_size_returns w h max_dimension Hw Hh ltac:(lia) Hb)
        as [sz E].
      now apply (Hok sz).
Qed.

(** C5, as amended.  A failure to open the source, a missing file, a
    file that may not be read, a directory, or another failure of [open]
    or of the first read, leaves the call unchanged, whatever the bound, as
    the exception Python raised: [FileNotFoundError], [PermissionError],
    [IsADirectoryError] or a plain [OSError], each an [OSError] and none of
    them an exception of the decoder or of the size arithmetic.  A device
    that fails after the header lets the image open; the call then never
    returns, and with a bound of at least 1 it raises the plain [OSError]
    of the failed read. *)
Theorem unavailable_source_raises fs path max_dimension :
  (fs path = Missing \/ fs path = Unreadable \/
   fs path = Directory \/ fs path = Unavailable ->
   exists e,
     resize_and_encode fs path max_dimension = Raise e /\
     e = match fs path with
         | Missing => FileNotFoundError
         | Unreadable => PermissionError
         | Directory => IsADirectoryError
         | _ => OSError
         end /\
     is_OSError e = true /\
     e <> UnidentifiedImageError /\ e <> DecompressionBombError /\
     e <> ValueError /\ e <> OverflowError /\ e <> ZeroDivisionError) /\
  (forall bytes img w h,
     fs path = Faulty bytes ->
     Image_open fs path = Ok img -> size img = (w, h) ->
     load img = Some OSError /\
     (exists e, resize_and_encode fs path max_dimension = Raise e) /\
     (1 <= max_dimension ->
      resize_and_encode fs path max_dimension = Raise OSError)).
Proof.
  split.
  - intros Hf.
    assert (Ho : forall e, Image_open fs path = Raise e ->
                           resize_and_encode fs path max_dimension = Raise e)
      by (intros e; apply resize_and_encode_raises_open).
    unfold Image_open in Ho.
    destruct Hf as [Hf|[Hf|[Hf|Hf]]]; rewrite Hf in *;
      eexists; (split; [apply Ho; reflexivity|]);
      repeat split; discriminate.
  - intros bytes img w h Hf Ho Hs.
    assert (Hl : load img = Some OSError).
    { unfold Image_open in Ho. rewrite Hf in Ho.
      destruct (decode bytes) as [img0|]; [|discriminate].
      destruct (size (interrupted img0)) as [w0 h0] eqn:Hs0.
      destruct (identified_ok _ _ w0 h0 Ho Hs0) as [-> _].
      apply load_interrupted. }
    destruct (Image_open_ok fs path img w h Ho Hs) as (Hw & Hh & _ & H28 & _).
    split; [exact Hl|]. split.
    + destruct (target_size w h max_dimension) as [sz|e] eqn:E.
      * exists OSError.
        now apply (load_failure_raises fs path _ img w h OSError sz).
      * exists e. apply (resize_and_encode_raises_resized _ _ _ img);
          [exact Ho|]. unfold resized. rewrite Hs, E. reflexivity.
    + intros Hb.
      destruct (target_size_returns w h max_dimension Hw Hh ltac:(lia) Hb)
        as [sz E].
      now apply (load_failure_raises fs path _ img w h OSError sz).
Qed.

(** C6, where it fails.  An image so thin that a side scaled by
    [max_dimension / max(W, H)] falls below one pixel, of any mode and with
    any bound of at least 1: the new side is 0, the resize is rejected, and
    the call raises [ValueError] instead of returning text (when the pixel
    data does not load, it raises what loading raises: it returns in no
    case).  An image one pixel wide and 5000 high with the default bound is
    such an image: the new width is [int(1 * 0.4096) = 0] and the target is
    0 x 2048. *)
Theorem thin_image_raises fs path max_dimension img w h :
  Image_open fs path = Ok img -> size img = (w, h) ->
  1 <= w -> 1 <= h -> 1 <= max_dimension -> Z.max w h <= 2 ^ 26 ->
  w * max_dimension < Z.max w h \/ h * max_dimension < Z.max w h ->
  (load img = None ->
   resize_and_encode fs path max_dimension = Raise ValueError) /\
  (forall e, load img = Some e ->
             resize_and_encode fs path max_dimension = Raise e) /\
  (w = 1 -> h = 5000 -> max_dimension = default_max_dimension ->
   target_size w h max_dimension = Ok (Some (0, 2048))).
Proof.
  intros Ho Hs Hw Hh Hb HM Hthin.
  assert (Hover : max_dimension < Z.max w h) by nia.
  destruct (target_size_over w h max_dimension Hw Hh ltac:(lia) ltac:(lia))
    as (sf & wf & hf & nw & nh & _ & _ & _ & _ & _ & Et & Hnw & Hnh
        & Hpw & Hph).
  assert (Hwb : w * max_dimension < 2 ^ 52)
    by (change (2 ^ 52) with (2 ^ 26 * 2 ^ 26); nia).
  assert (Hhb : h * max_dimension < 2 ^ 52)
    by (change (2 ^ 52) with (2 ^ 26 * 2 ^ 26); nia).
  pose proof (proportional_le w nw max_dimension (Z.max w h) Hpw
                ltac:(lia) ltac:(lia) ltac:(lia)) as Hnwb.
  pose proof (proportional_le h nh max_dimension (Z.max w h) Hph
                ltac:(lia) ltac:(lia) ltac:(lia)) as Hnhb.
  apply proportional_floor in Hpw; try lia.
  apply proportional_floor in Hph; try lia.
  split; [|split].
  - intros Hl. apply (resize_and_encode_raises_resized _ _ _ img);
      [exact Ho|].
    rewrite (resized_over img w h _ nw nh Hs Et).
    rewrite Image_resize_rejects; [|exact Hl|nia].
    assert (E1 : C_int nw = true) by (apply C_int_spec; lia).
    assert (E2 : C_int nh = true) by (apply C_int_spec; lia).
    now rewrite E1, E2.
  - intros e Hl.
    now apply (load_failure_raises fs path _ img w h e (Some (nw, nh))).
  - intros -> -> ->. vm_compute. reflexivity.
Qed.

(** What does hold of the channel layout: the mode of the input decides
    neither the mode of the output, which is always RGB, three bands and no
    alpha, nor, once the pixel data has loaded, whether a call returns. *)
Lemma channel_layout_flattened fs path max_dimension text :
  resize_and_encode fs path max_dimension = Ok text ->
  exists out,
    output_image text = Some out /\ mode out = Mode_RGB /\
    bands (mode out) = 3 /\ has_alpha (mode out) = false.
Proof.
  intros Ht.
  destruct (resize_and_encode_output _ _ _ _ Ht)
    as (_ & _ & out & _ & _ & Hout & _ & Hm).
  exists out. rewrite Hm. auto.
Qed.

Lemma channel_layout_never_decides fs path max_dimension img w h :
  Image_open fs path = Ok img -> size img = (w, h) -> load img = None ->
  (Z.max w h <= max_dimension ->
   1 <= w <= JPEG_MAX_DIMENSION -> 1 <= h <= JPEG_MAX_DIMENSION ->
   exists text, resize_and_encode fs path max_dimension = Ok text) /\
  (forall nw nh,
     target_size w h max_dimension = Ok (Some (nw, nh)) ->
     1 <= nw <= JPEG_MAX_DIMENSION -> 1 <= nh <= JPEG_MAX_DIMENSION ->
     exists text, resize_and_encode fs path max_dimension = Ok text).
Proof.
  intros Ho Hs Hl. split.
  - intros Hle Hw Hh.
    pose proof (resized_within img w h max_dimension Hs Hle) as Hr.
    destruct (resize_and_encode_size fs path max_dimension img img w h)
      as (text & _ & Ht & _); auto.
    exists text. exact Ht.
  - intros nw nh E Hw Hh.
    pose proof (resized_over img w h max_dimension nw nh Hs E) as Hr.
    destruct (Image_resize_accepts img nw nh LANCZOS Hl) as [Era Esz];
      [unfold JPEG_MAX_DIMENSION in *; lia ..|].
    rewrite Era in Hr.
    destruct (resize_and_encode_size fs path max_dimension img _ nw nh Ho Hr)
      as (text & _ & Ht & _); auto using load_resample.
    exists text. exact Ht.
Qed.

(** C7.  The text a call returns is the base64 encoding of the compressed
    stream the encoding step produced: every character is of the standard
    alphabet or the pad, none is a line break, the length is a multiple of
    four, and decoding the text gives that stream back. *)
Theorem returned_text_is_base64 fs path max_dimension text :
  resize_and_encode fs path max_dimension = Ok text ->
  exists img bytes,
    Image_open fs path = Ok img /\
    compressed img max_dimension = Ok bytes /\
    list_byte_of_string text = b64encode bytes /\
    Forall (fun c => is_b64_char c = true) (list_byte_of_string text) /\
    ~ In "010"%byte (list_byte_of_string text) /\
    ~ In "013"%byte (list_byte_of_string text) /\
    (List.length (list_byte_of_string text) mod 4 = 0)%nat /\
    b64decode (list_byte_of_string text) = Some bytes.
Proof.
  intros Ht. apply resize_and_encode_returns in Ht.
  destruct Ht as (img & bytes & Ho & Hc & ->).
  exists img, bytes. rewrite list_byte_of_string_of_list_byte.
  pose proof (b64encode_chars bytes) as Hch. rewrite Forall_forall in Hch.
  repeat split; auto.
  - apply Forall_forall. intros c Hin. specialize (Hch c Hin).
    unfold text_char in Hch. rewrite !andb_true_iff in Hch. tauto.
  - intros Hin. specialize (Hch _ Hin). discriminate.
  - intros Hin. specialize (Hch _ Hin). discriminate.
  - rewrite b64encode_length, Nat.mul_comm. apply Nat.Div0.mod_mul.
  - apply b64decode_b64encode.
Qed.

(** C8.  Normalising again: when an image within the bound has been
    normalised, the stream that came back, stored anywhere and normalised
    with the same bound, again gives text that decodes to an image of the
    size of the first input. *)
Theorem renormalize_same_size fs path max_dimension img w h text :
  Image_open fs path = Ok img -> size img = (w, h) ->
  Z.max w h <= max_dimension ->
  resize_and_encode fs path max_dimension = Ok text ->
  forall fs' path' bytes,
    b64decode (list_byte_of_string text) = Some bytes ->
    fs' path' = Content bytes ->
    exists text' out',
      resize_and_encode fs' path' max_dimension = Ok text' /\
      output_image text' = Some out' /\ size out' = (w, h).
Proof.
  intros Ho Hs Hle Ht fs' path' bytes Hb64 Hf.
  destruct (Image_open_ok fs path img w h Ho Hs) as (_ & _ & Hpx & _).
  apply resize_and_encode_returns in Ht.
  destruct Ht as (img1 & bytes1 & Ho1 & Hc & ->).
  rewrite Ho in Ho1. injection Ho1 as <-.
  rewrite list_byte_of_string_of_list_byte, b64decode_b64encode in Hb64.
  injection Hb64 as <-.
  pose proof (resized_within img w h max_dimension Hs Hle) as Hr.
  apply (normalize_again fs' path' max_dimension img img w h bytes1); auto.
Qed.

(** What a resize that came through leaves: the image had loaded, both
    new sides are at least 1, and the raster has the new size. *)
Lemma resized_over_ok (img img' : image) (w h max_dimension nw nh : Z) :
  size img = (w, h) ->
  target_size w h max_dimension = Ok (Some (nw, nh)) ->
  resized img max_dimension = Ok img' ->
  load img = None /\ 1 <= nw /\ 1 <= nh /\ size img' = (nw, nh).
Proof.
  intros Hs Et Hr. rewrite (resized_over img w h _ nw nh Hs Et) in Hr.
  unfold Image_resize in Hr.
  destruct (load img) as [e|]; [discriminate|].
  destruct (negb (C_int nw && C_int nh)); [discriminate|].
  destruct (Z.ltb_spec nw 1); [discriminate|].
  destruct (Z.ltb_spec nh 1); [discriminate|].
  cbn [orb] in Hr. injection Hr as <-.
  repeat split; auto. apply size_resample; lia.
Qed.

(** X4.  Normalising again after a resize.  For any image of positive
    sides and a bound of at least 1, a stream that came back is within the
    bound, so a second pass leaves its size as the first pass made it. *)
Lemma renormalize_after_resize fs path max_dimension img w h text :
  Image_open fs path = Ok img -> size img = (w, h) ->
  1 <= w -> 1 <= h -> 1 <= max_dimension -> Z.max w h < 2 ^ 52 ->
  resize_and_encode fs path max_dimension = Ok text ->
  exists bytes out w1 h1,
    b64decode (list_byte_of_string text) = Some bytes /\
    output_image text = Some out /\ size out = (w1, h1) /\
    Z.max w1 h1 <= max_dimension /\
    forall fs' path',
      fs' path' = Content bytes ->
      exists text' out',
        resize_and_encode fs' path' max_dimension = Ok text' /\
        output_image text' = Some out' /\ size out' = (w1, h1).
Proof.
  intros Ho Hs Hw Hh Hb HM Ht.
  destruct (Image_open_ok fs path img w h Ho Hs) as (_ & _ & Hpx & _).
  apply resize_and_encode_returns in Ht.
  destruct Ht as (img1 & bytes & Ho1 & Hc & ->).
  rewrite Ho in Ho1. injection Ho1 as <-.
  pose proof Hc as Hc'. apply compressed_returns in Hc'.
  destruct Hc' as (img' & w1 & h1 & Hr & Hs1 & Hw1 & Hh1 & _).
  destruct (output_image_compressed img img' max_dimension bytes Hr Hc)
    as (out & Hout & Hso & _).
  assert (Hle : Z.max w1 h1 <= max_dimension /\ w1 <= w /\ h1 <= h).
  { destruct (Z.le_gt_cases (Z.max w h) max_dimension) as [Hin|Hover].
    - rewrite (resized_within img w h max_dimension Hs Hin) in Hr.
      injection Hr as <-. rewrite Hs in Hs1. injection Hs1 as <- <-.
      lia.
    - destruct (target_size_over w h max_dimension Hw Hh ltac:(lia) HM)
        as (sf & wf & hf & nw & nh & _ & _ & _ & _ & _ & Et & Hnw & Hnh
            & Hpw & Hph).
      destruct (resized_over_ok img img' w h _ nw nh Hs Et Hr)
        as (_ & _ & _ & Hs1').
      rewrite Hs1 in Hs1'. injection Hs1' as -> ->.
      assert (nw <= max_dimension)
        by (apply (proportional_le w nw max_dimension (Z.max w h));
            auto; lia).
      assert (nh <= max_dimension)
        by (apply (proportional_le h nh max_dimension (Z.max w h));
            auto; lia).
      assert (nw < w)
        by (apply (proportional_shrinks w nw max_dimension (Z.max w h));
            auto; lia).
      assert (nh < h)
        by (apply (proportional_shrinks h nh max_dimension (Z.max w h));
            auto; lia).
      lia. }
  destruct Hle as (Hle & Hw1w & Hh1h).
  exists bytes, out, w1, h1.
  rewrite list_byte_of_string_of_list_byte, b64decode_b64encode.
  split; [reflexivity|]. split; [exact Hout|]. split; [congruence|].
  split; [exact Hle|].
  intros fs' path' Hf.
  apply (normalize_again fs' path' max_dimension img img' w1 h1 bytes); auto.
  nia.
Qed.









(** C10.  Every text returned is the base64 encoding of a JPEG stream
    freshly encoded at quality 85 from the raster converted to RGB: also
    when the image is within the bound and the raster is the opened image
    itself, and whatever the bytes of the source were, which reach the
    output only through the image they decode to. *)
Theorem always_reencoded fs path max_dimension text :
  resize_and_encode fs path max_dimension = Ok text ->
  exists img img',
    Image_open fs path = Ok img /\
    resized img max_dimension = Ok img' /\
    Image_convert img' Mode_RGB = Ok (convert img' Mode_RGB) /\
    Image_save_JPEG (convert img' Mode_RGB) 85
    = Ok (jpeg_encode (convert img' Mode_RGB) 85) /\
    text = string_of_list_byte
             (b64encode (jpeg_encode (convert img' Mode_RGB) 85)) /\
    (forall w h, size img = (w, h) -> Z.max w h <= max_dimension ->
                 img' = img) /\
    (forall fs' path' bytes',
       fs' path' = Content bytes' -> decode bytes' = Some img ->
       resize_and_encode fs' path' max_dimension = Ok text).
Proof.
  intros Ht. apply resize_and_encode_returns in Ht.
  destruct Ht as (img & bytes & Ho & Hc & ->).
  pose proof Hc as Hc'. apply compressed_returns in Hc'.
  destruct Hc' as (img' & w' & h' & Hr & Hs' & Hw & Hh & -> & Hl).
  pose proof (Image_convert_loaded img' Mode_RGB Hl) as Hcv.
  exists img, img'. repeat split; auto.
  - unfold compressed in Hc. rewrite Hr in Hc. cbn [bind] in Hc.
    rewrite Hcv in Hc. exact Hc.
  - intros w h Hs Hle.
    rewrite (resized_within img w h max_dimension Hs Hle) in Hr.
    now injection Hr.
  - intros fs' path' bytes' Hf Hd. apply resize_and_encode_returns.
    exists img, (jpeg_encode (convert img' Mode_RGB) 85).
    repeat split; auto.
    destruct (size img) as [w h] eqn:Hs.
    destruct (Image_open_ok fs path img w h Ho Hs) as (_ & _ & _ & _ & Hi).
    now apply (Image_open_Content fs' path' bytes').
Qed.

End Claims.

(** ** The properties at concrete inputs *)

Import Examples.

#[local] Existing Instance Sample.pil.

(** C1 at 4000 x 3000 with bound 2048: the text decodes to 2048 x 1536. *)
Lemma resize_truncates_witness :
  exists text out,
    resize_and_encode scan_4000x3000 "huge_scan.png" 2048 = Ok text /\
    output_image text = Some out /\ size out = (2048, 1536).
Proof.
  destruct (resize_truncates (PIL := Sample.pil) scan_4000x3000 "huge_scan.png" 2048
              {| Sample.r_size := (4000, 3000); Sample.r_mode := Mode_RGBA;
                 Sample.r_load := None |}
              4000 3000)
    as (sf & wf & hf & nw & nh & _ & _ & _ & _ & _ & _ & _ & _ & _
        & _ & _ & _ & Hout & _ & Hscan);
    [ vm_compute; reflexivity | reflexivity | lia | ].
  destruct Hscan as [-> ->]; [reflexivity ..|].
  apply Hout; [lia | lia | unfold JPEG_MAX_DIMENSION; lia | reflexivity].
Defined.

(** The amended C1 past the encoder's limit: 100000 x 10 at bound 70000
    is resampled to 70000 x 7, which the JPEG encoder does not write. *)
Lemma oversize_example :
  target_size 100000 10 70000 = Ok (Some (70000, 7)) /\
  resize_and_encode banner_100000x10 "banner.png" 70000 = Raise OSError.
Proof.
  split; vm_compute; reflexivity.
Qed.

(** C1 as it was stated fails.  At 3 x 4 with bound 2 the code resamples
    to 1 x 2 where rounding gives 2 x 2; at 2215 x 2215 with the default
    bound it resamples to 2047 x 2047, the longest side one short of the
    bound, where rounding gives 2048 x 2048. *)
Lemma resize_rounds_counterexample :
  target_size 3 4 2 = Ok (Some (1, 2)) /\
  spec_target_size 3 4 2 = Ok (Some (2, 2)) /\
  target_size 2215 2215 2048 = Ok (Some (2047, 2047)) /\
  spec_target_size 2215 2215 2048 = Ok (Some (2048, 2048)) /\
  exists text out,
    resize_and_encode scan_2215x2215 "huge_scan.png" 2048 = Ok text /\
    output_image text = Some out /\ size out = (2047, 2047) /\
    Z.max (fst (size out)) (snd (size out)) <> 2048.
Proof.
  repeat (split; [vm_compute; reflexivity|]).
  eexists. eexists.
  split; [vm_compute; reflexivity|].
  split; [vm_compute; reflexivity|].
  split; [reflexivity | vm_compute; discriminate].
Qed.

(** C2 at the boundary: 2048 x 1536 with bound 2048. *)
Lemma no_upscaling_witness :
  exists text out,
    resize_and_encode scan_2048x1536 "huge_scan.png" 2048 = Ok text /\
    output_image text = Some out /\ size out = (2048, 1536).
Proof.
  destruct (no_upscaling (PIL := Sample.pil) scan_2048x1536 "huge_scan.png" 2048
              {| Sample.r_size := (2048, 1536); Sample.r_mode := Mode_L;
                 Sample.r_load := None |}
              2048 1536)
    as (_ & Hout & Hret);
    [ vm_compute; reflexivity | reflexivity | lia | ].
  destruct Hret as [text Ht]; [unfold JPEG_MAX_DIMENSION; lia ..|].
  destruct (Hout text Ht) as (out & H1 & H2).
  exists text, out. auto.
Defined.

(** C3 as it was stated fails: with bound 0 and no file at the path the
    call raises [FileNotFoundError], not an invalid-argument error. *)
Lemma invalid_argument_counterexample :
  resize_and_encode Sample.no_file "huge_scan.png" 0
  = Raise FileNotFoundError /\
  spec_error_class FileNotFoundError = Some SourceUnavailableError /\
  spec_error_class FileNotFoundError <> Some InvalidArgumentError.
Proof.
  split; [vm_compute; reflexivity|]. split; [reflexivity | discriminate].
Qed.

(** C3 as amended, at 1024 x 768: with bound 0 the target is 0 x 0 and
    the resize raises [ValueError]; with bound [- 2 ^ 32] the target has
    sides below the least C [int] and the resize raises [OverflowError]. *)
Lemma nonpositive_bound_unchecked_witness :
  target_size 1024 768 0 = Ok (Some (0, 0)) /\
  resize_and_encode scan_1024x768 "huge_scan.png" 0 = Raise ValueError /\
  target_size 1024 768 (- 4294967296)
  = Ok (Some (- 4294967296, - 3221225472)) /\
  resize_and_encode scan_1024x768 "huge_scan.png" (- 4294967296)
  = Raise OverflowError.
Proof.
  destruct (nonpositive_bound_unchecked (PIL := Sample.pil)
              scan_1024x768 "huge_scan.png" 0)
    as [_ H]; [lia|].
  destruct (H {| Sample.r_size := (1024, 768); Sample.r_mode := Mode_CMYK;
                 Sample.r_load := None |}
              1024 768)
    as (_ & _ & _ & Hzero);
    [ vm_compute; reflexivity | reflexivity | ].
  destruct Hzero as [Ht Hc]; [reflexivity|].
  split; [exact Ht|]. split; [apply Hc; reflexivity|].
  assert (Et : target_size 1024 768 (- 4294967296)
               = Ok (Some (- 4294967296, - 3221225472)))
    by (vm_compute; reflexivity).
  split; [exact Et|].
  destruct (nonpositive_bound_unchecked (PIL := Sample.pil)
              scan_1024x768 "huge_scan.png" (- 4294967296))
    as [_ H']; [lia|].
  destruct (H' {| Sample.r_size := (1024, 768); Sample.r_mode := Mode_CMYK;
                  Sample.r_load := None |}
               1024 768)
    as (_ & _ & Hsome & _);
    [ vm_compute; reflexivity | reflexivity | ].
  destruct (Hsome _ _ Et) as (_ & _ & _ & Hc'). exact Hc'.
Defined.

(** C4 as it was stated fails.  A 300 x 200 image cut short is
    identified and opens; its pixel data does not load, and the call
    raises the plain [OSError] that a failed read raises too, which is no
    decode failure of its own: a class that holds it as the decode failure
    holds the failed read with it. *)
Lemma corrupted_source_counterexample :
  Image_open cut_300x200 "cut.png"
  = Ok {| Sample.r_size := (300, 200); Sample.r_mode := Mode_RGB;
          Sample.r_load := Some OSError |} /\
  resize_and_encode cut_300x200 "cut.png" 2048 = Raise OSError /\
  resize_and_encode bad_device "huge_scan.png" 2048 = Raise OSError /\
  spec_error_class OSError <> Some DecodeError /\
  forall class : exn -> SpecErrorClass,
    ~ (class OSError = DecodeError /\ class OSError = SourceUnavailableError).
Proof.
  split; [vm_compute; reflexivity|].
  split; [vm_compute; reflexivity|].
  split; [vm_compute; reflexivity|].
  split; [discriminate|].
  intros class [H1 H2]. rewrite H1 in H2. discriminate.
Qed.

(** C4 as amended, on a text file, on the image cut short and on an
    image of 20000 x 20000. *)
Lemma undecodable_source_raises_witness :
  resize_and_encode not_an_image "notes.txt" 2048
  = Raise UnidentifiedImageError /\
  resize_and_encode cut_300x200 "cut.png" 2048 = Raise OSError /\
  resize_and_encode bomb_20000x20000 "bomb.png" 2048
  = Raise DecompressionBombError.
Proof.
  split; [|split].
  - destruct (undecodable_source_raises (PIL := Sample.pil)
                not_an_image "notes.txt" 2048) as [H _].
    apply (H (list_byte_of_string "Extract JSON data..."));
      [left|]; vm_compute; reflexivity.
  - destruct (undecodable_source_raises (PIL := Sample.pil)
                cut_300x200 "cut.png" 2048) as (_ & _ & H).
    destruct (H {| Sample.r_size := (300, 200); Sample.r_mode := Mode_RGB;
                   Sample.r_load := Some OSError |}
                300 200 OSError)
      as (_ & _ & _ & Hb);
      [ vm_compute; reflexivity | reflexivity | reflexivity | ].
    apply Hb. lia.
  - destruct (undecodable_source_raises (PIL := Sample.pil)
                bomb_20000x20000 "bomb.png" 2048) as (_ & H & _).
    destruct (H (Sample.stored Mode_L 20000 20000)
                {| Sample.r_size := (20000, 20000); Sample.r_mode := Mode_L;
                   Sample.r_load := None |} 20000 20000)
      as [_ Hbomb];
      [ reflexivity | vm_compute; reflexivity | reflexivity | ].
    apply Hbomb; [lia | lia | vm_compute; reflexivity].
Defined.

(** C5 as it was stated fails.  A device that fails under the pixel data
    of a 300 x 200 image, and one that fails at [open], make the call raise
    a plain [OSError]: the exception of the image cut short, a decode
    failure.  By its class the I/O failure is not told from the decode
    failure, and [UnidentifiedImageError] is an [OSError] as well. *)
Lemma io_failure_counterexample :
  resize_and_encode faulty_300x200 "faulty.png" 2048 = Raise OSError /\
  resize_and_encode bad_device "huge_scan.png" 2048 = Raise OSError /\
  resize_and_encode cut_300x200 "cut.png" 2048 = Raise OSError /\
  spec_error_class OSError <> Some SourceUnavailableError /\
  is_OSError UnidentifiedImageError = true /\
  forall class : exn -> SpecErrorClass,
    ~ (class OSError = SourceUnavailableError /\ class OSError = DecodeError).
Proof.
  split; [vm_compute; reflexivity|].
  split; [vm_compute; reflexivity|].
  split; [vm_compute; reflexivity|].
  split; [discriminate|]. split; [reflexivity|].
  intros class [H1 H2]. rewrite H1 in H2. discriminate.
Qed.

(** C5 as amended, on a path with no file and on a directory. *)
Lemma unavailable_source_raises_witness :
  (exists e,
     resize_and_encode Sample.no_file "huge_scan.png" 2048 = Raise e /\
     e = FileNotFoundError) /\
  (exists e,
     resize_and_encode a_directory "scans" 2048 = Raise e /\
     e = IsADirectoryError) /\
  resize_and_encode faulty_300x200 "faulty.png" 2048 = Raise OSError.
Proof.
  split; [|split].
  - destruct (unavailable_source_raises (PIL := Sample.pil)
                Sample.no_file "huge_scan.png" 2048) as [H _].
    destruct H as (e & He & Ee & _); [left; reflexivity|].
    exists e. split; [exact He | exact Ee].
  - destruct (unavailable_source_raises (PIL := Sample.pil)
                a_directory "scans" 2048) as [H _].
    destruct H as (e & He & Ee & _); [right; right; left; reflexivity|].
    exists e. split; [exact He | exact Ee].
  - destruct (unavailable_source_raises (PIL := Sample.pil)
                faulty_300x200 "faulty.png" 2048) as [_ H].
    destruct (H (Sample.stored Mode_RGB 300 200)
                {| Sample.r_size := (300, 200); Sample.r_mode := Mode_RGB;
                   Sample.r_load := Some OSError |} 300 200)
      as (_ & _ & Hb);
      [ reflexivity | vm_compute; reflexivity | reflexivity | ].
    apply Hb. lia.
Defined.

(** C6 on a 1 x 5000 strip. *)
Lemma thin_image_raises_witness :
  target_size 1 5000 2048 = Ok (Some (0, 2048)) /\
  resize_and_encode strip_1x5000 "strip.png" 2048 = Raise ValueError.
Proof.
  destruct (thin_image_raises (PIL := Sample.pil) strip_1x5000 "strip.png"
              2048
              {| Sample.r_size := (1, 5000); Sample.r_mode := Mode_RGB;
                 Sample.r_load := None |}
              1 5000)
    as (Hraise & _ & Htarget);
    [ vm_compute; reflexivity | reflexivity | lia | lia | lia | lia
    | left; lia | ].
  split; [apply Htarget; reflexivity | apply Hraise; reflexivity].
Defined.

(** C7 on the 4000 x 3000 scan. *)
Lemma returned_text_is_base64_witness :
  exists bytes,
    Base64.b64decode
      (list_byte_of_string "SlUwMDAwMDAwMDAwMC4wMDAwMDAwMDAxLg==")
    = Some bytes.
Proof.
  destruct (returned_text_is_base64 (PIL := Sample.pil) scan_4000x3000 "huge_scan.png" 2048
              "SlUwMDAwMDAwMDAwMC4wMDAwMDAwMDAxLg==")
    as (img & bytes & _ & _ & _ & _ & _ & _ & _ & Hd);
    [vm_compute; reflexivity|].
  exists bytes. exact Hd.
Defined.

(** C8 on the 1024 x 768 scan: the stream that came back, stored as
    [again.jpg], gives 1024 x 768 again. *)
Lemma renormalize_same_size_witness :
  exists text' out',
    resize_and_encode
      (Sample.one_file "again.jpg"
         (Sample.r_jpeg
            {| Sample.r_size := (1024, 768); Sample.r_mode := Mode_RGB;
              Sample.r_load := None |} 85))
      "again.jpg" 2048 = Ok text' /\
    output_image text' = Some out' /\ size out' = (1024, 768).
Proof.
  apply (renormalize_same_size (PIL := Sample.pil)
           scan_1024x768 "huge_scan.png" 2048
           {| Sample.r_size := (1024, 768); Sample.r_mode := Mode_CMYK;
              Sample.r_load := None |}
           1024 768 "SlUwMDAwMDAwMDAwLjAwMDAwMDAwMS4="
           ltac:(vm_compute; reflexivity) eq_refl ltac:(lia)
           ltac:(vm_compute; reflexivity)
           (Sample.one_file "again.jpg"
              (Sample.r_jpeg
                 {| Sample.r_size := (1024, 768); Sample.r_mode := Mode_RGB;
              Sample.r_load := None |}
                 85))
           "again.jpg"
           (Sample.r_jpeg
              {| Sample.r_size := (1024, 768); Sample.r_mode := Mode_RGB;
              Sample.r_load := None |}
              85));
    vm_compute; reflexivity.
Defined.


(** The proviso of C9 is needed: over a library whose encoder answers in
    two ways, one call on the 4000 x 3000 scan has two results. *)
Lemma calls_unsettled :
  exists r1 r2,
    calls (library_unsettled Sample.pil) scan_4000x3000 "huge_scan.png" 2048
      r1 /\
    calls (library_unsettled Sample.pil) scan_4000x3000 "huge_scan.png" 2048
      r2 /\
    r1 <> r2.
Proof.
  set (img := {| Sample.r_size := (4000, 3000); Sample.r_mode := Mode_RGBA;
                 Sample.r_load := None |}).
  set (img' := Sample.r_resample img (2048, 1536) LANCZOS).
  set (rgb := Sample.r_convert img' Mode_RGB).
  set (bytes := Sample.r_jpeg rgb 85).
  assert (Hrun : forall buffered,
            buffered = bytes \/ buffered = bytes ++ ["000"%byte] ->
            calls (library_unsettled Sample.pil) scan_4000x3000
              "huge_scan.png" 2048
              (Base64.decode_utf8 (Base64.b64encode buffered))).
  { intros buffered Hb. unfold calls.
    right. exists img. split; [vm_compute; reflexivity|].
    right. exists img'. split.
    { right. exists (Some (2048, 1536)).
      split; vm_compute; reflexivity. }
    right. exists rgb. split; [vm_compute; reflexivity|].
    right. exists buffered. split; [|reflexivity].
    destruct Hb as [->| ->]; [left; vm_compute; reflexivity|].
    right. exists bytes. split; vm_compute; reflexivity. }
  exists (Base64.decode_utf8 (Base64.b64encode bytes)),
         (Base64.decode_utf8 (Base64.b64encode (bytes ++ ["000"%byte]))).
  split; [apply Hrun; left; reflexivity|].
  split; [apply Hrun; right; reflexivity|].
  vm_compute. discriminate.
Qed.

(** C10 on the 1024 x 768 scan, which is within the bound. *)
Lemma always_reencoded_witness :
  exists img',
    "SlUwMDAwMDAwMDAwLjAwMDAwMDAwMS4="%string
    = string_of_list_byte
        (Base64.b64encode (jpeg_encode (convert img' Mode_RGB) 85)).
Proof.
  destruct (always_reencoded (PIL := Sample.pil) scan_1024x768 "huge_scan.png" 2048
              "SlUwMDAwMDAwMDAwLjAwMDAwMDAwMS4=")
    as (img & img' & _ & _ & _ & _ & Ht & _);
    [vm_compute; reflexivity|].
  exists img'. exact Ht.
Defined.
(** * Further properties of the function and of the script *)

(** ** Calls *)

Section MoreCalls.

Context {PIL : Imaging}.

Import Base64 Base64Facts.





Lemma string_length_of_list_byte (s : list byte) :
  String.length (string_of_list_byte s) = List.length s.
Proof.
  unfold string_of_list_byte.
  induction s as [|b s IH]; cbn; [reflexivity | now rewrite IH].
Qed.

End MoreCalls.

(** ** What else the function guarantees *)

Section Extras.

Context {PIL : Imaging}.

Import Base64 Base64Facts.

(** The size of the raster a call encodes, from the size of the input. *)
Lemma resized_size (img img' : image) (w h max_dimension : Z) :
  size img = (w, h) -> resized img max_dimension = Ok img' ->
  size img' = match target_size w h max_dimension with
              | Ok (Some new_size) => new_size
              | _ => (w, h)
              end.
Proof.
  intros Hs Hr.
  destruct (target_size w h max_dimension) as [[[nw nh]|]|e] eqn:Et.
  - now destruct (resized_over_ok img img' w h _ nw nh Hs Et Hr)
      as (_ & _ & _ & E).
  - unfold resized in Hr. rewrite Hs, Et in Hr. now injection Hr as <-.
  - unfold resized in Hr. rewrite Hs, Et in Hr. discriminate.
Qed.

(** The raster a returning call encoded: its sides are within the bound,
    at least 1, and not over the sides of the input. *)
Lemma encoded_raster_bounds (img img' : image) (w h w1 h1 max_dimension : Z) :
  size img = (w, h) -> 1 <= w -> 1 <= h -> Z.max w h < 2 ^ 52 ->
  resized img max_dimension = Ok img' -> size img' = (w1, h1) ->
  1 <= w1 -> 1 <= h1 ->
  w1 <= max_dimension /\ h1 <= max_dimension /\ w1 <= w /\ h1 <= h.
Proof.
  intros Hs Hw Hh HM Hr Hs1 Hw1 Hh1.
  rewrite (resized_size img img' w h max_dimension Hs Hr) in Hs1.
  destruct (Z.le_gt_cases (Z.max w h) max_dimension) as [Hin|Hover].
  - unfold target_size in Hs1.
    destruct (Z.gtb_spec (Z.max w h) max_dimension); [lia|].
    injection Hs1 as <- <-. lia.
  - destruct (Z.le_gt_cases max_dimension 0) as [Hb|Hb].
    + pose proof (target_size_nonpositive w h max_dimension Hw Hh Hb) as Ht.
      destruct (target_size w h max_dimension) as [[[nw nh]|]|e] eqn:Et;
        [ injection Hs1 as <- <-; lia | contradiction | ].
      exfalso. unfold resized in Hr. rewrite Hs, Et in Hr. discriminate.
    + destruct (target_size_over w h max_dimension Hw Hh ltac:(lia) HM)
        as (sf & wf & hf & nw & nh & _ & _ & _ & _ & _ & Et & Hnw & Hnh
            & Hpw & Hph).
      rewrite Et in Hs1. injection Hs1 as <- <-.
      pose proof (proportional_le w nw max_dimension (Z.max w h) Hpw).
      pose proof (proportional_le h nh max_dimension (Z.max w h) Hph).
      pose proof (proportional_shrinks w nw max_dimension (Z.max w h) Hpw).
      pose proof (proportional_shrinks h nh max_dimension (Z.max w h) Hph).
      lia.
Qed.


(** X1.  The docstring, for the text that comes back: whatever the bound,
    a returned text decodes to an image whose sides are at least 1, not
    over [max_dimension], and not over the sides of the input, so no side
    is ever scaled up. *)
Theorem longest_side_within_bound fs path max_dimension img w h text :
  Image_open fs path = Ok img -> size img = (w, h) ->
  1 <= w -> 1 <= h -> Z.max w h < 2 ^ 52 ->
  resize_and_encode fs path max_dimension = Ok text ->
  exists out w1 h1,
    output_image text = Some out /\ size out = (w1, h1) /\
    1 <= w1 <= max_dimension /\ 1 <= h1 <= max_dimension /\
    w1 <= w /\ h1 <= h.
Proof.
  intros Ho Hs Hw Hh HM Ht.
  apply resize_and_encode_returns in Ht.
  destruct Ht as (img1 & bytes & Ho1 & Hc & ->).
  rewrite Ho in Ho1. injection Ho1 as <-.
  pose proof Hc as Hc'. apply compressed_returns in Hc'.
  destruct Hc' as (img' & w1 & h1 & Hr & Hs1 & Hw1 & Hh1 & _).
  destruct (output_image_compressed img img' max_dimension bytes Hr Hc)
    as (out & Hout & Hso & _).
  destruct (encoded_raster_bounds img img' w h w1 h1 max_dimension)
    as (B1 & B2 & B3 & B4); auto; try lia.
  exists out, w1, h1. rewrite Hso. repeat split; auto; lia.
Qed.

(** X2.  The size computed for an image over the bound keeps the
    orientation: the longer side of the input gives the longer new side,
    and equal sides give equal new sides. *)
Theorem orientation_preserved w h max_dimension new_width new_height :
  1 <= w -> 1 <= h -> 1 <= max_dimension -> Z.max w h <= 2 ^ 26 ->
  target_size w h max_dimension = Ok (Some (new_width, new_height)) ->
  (h <= w -> new_height <= new_width) /\
  (w <= h -> new_width <= new_height) /\
  (w = h -> new_width = new_height).
Proof.
  intros Hw Hh Hb HM Ht.
  assert (Hover : max_dimension < Z.max w h).
  { unfold target_size in Ht.
    destruct (Z.gtb_spec (Z.max w h) max_dimension); [lia|discriminate]. }
  destruct (target_size_over w h max_dimension Hw Hh ltac:(lia) ltac:(lia))
    as (sf & wf & hf & nw & nh & _ & Ewf & Enw & Ehf & Enh & Et & Hnw & Hnh
        & Hpw & Hph).
  rewrite Et in Ht. injection Ht as <- <-.
  assert (Hwb : w * max_dimension < 2 ^ 52)
    by (change (2 ^ 52) with (2 ^ 26 * 2 ^ 26); nia).
  assert (Hhb : h * max_dimension < 2 ^ 52)
    by (change (2 ^ 52) with (2 ^ 26 * 2 ^ 26); nia).
  apply proportional_floor in Hpw; try lia.
  apply proportional_floor in Hph; try lia.
  assert (Esame : w = h -> nw = nh).
  { intros E. rewrite E in Ewf. rewrite Ewf in Ehf. injection Ehf as <-.
    rewrite Enw in Enh. now injection Enh. }
  split; [|split; [|exact Esame]].
  - intros Hle. destruct (Z.eq_dec w h) as [E|N]; [specialize (Esame E); lia|].
    replace (Z.max w h) with w in * by lia. nia.
  - intros Hle. destruct (Z.eq_dec w h) as [E|N]; [specialize (Esame E); lia|].
    replace (Z.max w h) with h in * by lia. nia.
Qed.




(** X8.  The text of a returning call has four characters for every three
    bytes of the compressed stream, rounded up: its length is
    [4 * ((n + 2) / 3)] for a stream of [n] bytes, so it is never shorter
    than the stream. *)
Theorem text_length fs path max_dimension text :
  resize_and_encode fs path max_dimension = Ok text ->
  exists img bytes,
    Image_open fs path = Ok img /\
    compressed img max_dimension = Ok bytes /\
    String.length text = (4 * ((List.length bytes + 2) / 3))%nat /\
    (List.length bytes <= String.length text)%nat.
Proof.
  intros Ht. apply resize_and_encode_returns in Ht.
  destruct Ht as (img & bytes & Ho & Hc & ->).
  exists img, bytes. split; [exact Ho|]. split; [exact Hc|].
  rewrite string_length_of_list_byte, b64encode_length.
  split; [reflexivity|].
  pose proof (Nat.div_mod_eq (List.length bytes + 2) 3) as E.
  pose proof (Nat.mod_upper_bound (List.length bytes + 2) 3) as B.
  lia.
Qed.

End Extras.

(** ** The script *)

Section ScriptFacts.

Context {PIL : Imaging}.

Import Base64 Base64Facts Script.

(** X9.  How the script ends.  Line 32 stands outside the [try]: when
    [resize_and_encode] raises there, the script ends on that exception
    with nothing printed and nothing asked of the client.  When line 32
    returns, no exception of [resize_and_encode] ends the script.  What the
    client or [json.loads] raises and [except Exception] catches is printed
    after [Error: ], and the script ends at its last line with one line
    printed and at most one request made; what [except Exception] does not
    catch, a [KeyboardInterrupt] for one, ends the script after the request
    with nothing printed.  With no [client] bound no request is made and
    the line printed is the one of the [NameError]. *)
Theorem script_ends fs env :
  (forall e,
     resize_and_encode fs "huge_scan.png"%string default_max_dimension
     = Raise e ->
     outcome (script fs env) = Uncaught e /\
     printed (script fs env) = [] /\ requested (script fs env) = []) /\
  (forall text,
     resize_and_encode fs "huge_scan.png"%string default_max_dimension
     = Ok text ->
     (forall e, outcome (script fs env) <> Uncaught e) /\
     (List.length (requested (script fs env)) <= 1)%nat /\
     (outcome (script fs env) = Done ->
      exists line, printed (script fs env) = [line]) /\
     (forall e,
        outcome (script fs env) = Interrupted e ->
        printed (script fs env) = [] /\
        requested (script fs env) = [the_request text] /\
        exists create,
          client env = Some create /\
          (create (the_request text) = Passed e \/
           exists content,
             create (the_request text) = Got content /\
             show_json env content = Passed e)) /\
     (forall create message,
        client env = Some create ->
        create (the_request text) = Threw (Raised message) ->
        outcome (script fs env) = Done /\
        printed (script fs env) = [("Error: " ++ message)%string]) /\
     (client env = None ->
      outcome (script fs env) = Done /\
      requested (script fs env) = [] /\
      printed (script fs env)
      = ["Error: name 'client' is not defined"%string])).
Proof.
  unfold script.
  destruct (resize_and_encode fs "huge_scan.png" default_max_dimension)
    as [text0|e0].
  - split; [discriminate|]. intros text [= <-].
    destruct (client env) as [create|].
    + destruct (create (the_request text0)) as [content|e1|e1] eqn:Ec.
      * destruct (show_json env content) as [shown|e2|e2] eqn:Ej;
          cbn [outcome printed requested List.length].
        -- split; [discriminate|]. split; [lia|].
           split; [intros _; eauto|].
           split; [discriminate|]. split; [|discriminate].
           intros create' message [= <-] Hc. congruence.
        -- split; [discriminate|]. split; [lia|].
           split; [intros _; eauto|].
           split; [discriminate|]. split; [|discriminate].
           intros create' message [= <-] Hc. congruence.
        -- split; [discriminate|]. split; [lia|].
           split; [discriminate|].
           split; [|split; [|discriminate]].
           ++ intros e [= <-]. repeat split.
              exists create. split; [reflexivity|]. right. eauto.
           ++ intros create' message [= <-] Hc. congruence.
      * cbn [outcome printed requested List.length].
        split; [discriminate|]. split; [lia|].
        split; [intros _; eauto|].
        split; [discriminate|]. split; [|discriminate].
        intros create' message [= <-] Hc. rewrite Ec in Hc.
        injection Hc as ->. split; reflexivity.
      * cbn [outcome printed requested List.length].
        split; [discriminate|]. split; [lia|].
        split; [discriminate|].
        split; [|split; [|discriminate]].
        -- intros e [= <-]. repeat split.
           exists create. split; [reflexivity|]. left. exact Ec.
        -- intros create' message [= <-] Hc. congruence.
    + cbn [outcome printed requested List.length].
      split; [discriminate|]. split; [lia|].
      split; [intros _; eauto|].
      split; [discriminate|]. split; [discriminate|].
      intros _. repeat split.
  - split; [|discriminate]. intros e [= <-]. repeat split.
Qed.

(** X10.  What a request carries.  Every request the script makes is the
    one of lines 36 to 53 with a single image part, whose URL is
    [data:image/jpeg;base64,] followed by the text [resize_and_encode]
    returned for [huge_scan.png] with the default bound; the part after the
    comma decodes from base64 to the JPEG stream that was encoded, which
    decodes to an RGB image: the media type named is the format sent. *)
Theorem script_request_carries_image fs env req :
  In req (requested (script fs env)) ->
  exists text img bytes out,
    resize_and_encode fs "huge_scan.png"%string default_max_dimension = Ok text /\
    req = the_request text /\
    image_urls req = [data_url text] /\
    after_comma (data_url text) = text /\
    Image_open fs "huge_scan.png"%string = Ok img /\
    compressed img default_max_dimension = Ok bytes /\
    b64decode (list_byte_of_string (after_comma (data_url text)))
    = Some bytes /\
    decode bytes = Some out /\ mode out = Mode_RGB.
Proof.
  unfold script.
  destruct (resize_and_encode fs "huge_scan.png"%string default_max_dimension)
    as [text|e0] eqn:Et; [|intros []].
  assert (Hreq : req = the_request text ->
    exists text0 img bytes out,
      Ok text = Ok text0 /\ req = the_request text0 /\
      image_urls req = [data_url text0] /\
      after_comma (data_url text0) = text0 /\
      Image_open fs "huge_scan.png"%string = Ok img /\
      compressed img default_max_dimension = Ok bytes /\
      b64decode (list_byte_of_string (after_comma (data_url text0)))
      = Some bytes /\
      decode bytes = Some out /\ mode out = Mode_RGB).
  { intros ->. pose proof Et as Et'.
    apply resize_and_encode_returns in Et'.
    destruct Et' as (img & bytes & Ho & Hc & Etext).
    pose proof Hc as Hc'. apply compressed_returns in Hc'.
    destruct Hc' as (img' & w' & h' & Hr & _).
    destruct (output_image_compressed img img' _ bytes Hr Hc)
      as (out & Hout & _ & Hm).
    rewrite output_image_text in Hout.
    exists text, img, bytes, out.
    assert (Eafter : after_comma (data_url text) = text) by reflexivity.
    rewrite Eafter. repeat split; auto.
    rewrite Etext, list_byte_of_string_of_list_byte.
    apply b64decode_b64encode. }
  destruct (client env) as [create|]; [|intros []].
  destruct (create (the_request text)) as [content|e1|e1].
  - destruct (show_json env content); cbn [requested];
      intros [<-|[]]; now apply Hreq.
  - cbn [requested]. intros [<-|[]]. now apply Hreq.
  - cbn [requested]. intros [<-|[]]. now apply Hreq.
Qed.

End ScriptFacts.

(** ** The further properties at concrete inputs *)

(** X1 on the 4000 x 3000 scan with bound 2048. *)
Lemma longest_side_within_bound_witness :
  exists out w1 h1,
    output_image "SlUwMDAwMDAwMDAwMC4wMDAwMDAwMDAxLg==" = Some out /\
    size out = (w1, h1) /\
    1 <= w1 <= 2048 /\ 1 <= h1 <= 2048 /\ w1 <= 4000 /\ h1 <= 3000.
Proof.
  apply (longest_side_within_bound (PIL := Sample.pil)
           scan_4000x3000 "huge_scan.png" 2048
           {| Sample.r_size := (4000, 3000); Sample.r_mode := Mode_RGBA;
              Sample.r_load := None |}
           4000 3000 "SlUwMDAwMDAwMDAwMC4wMDAwMDAwMDAxLg==");
    [ vm_compute; reflexivity | reflexivity | lia | lia | lia
    | vm_compute; reflexivity ].
Defined.

(** X2 at 4000 x 3000 with bound 2048, which gives 2048 x 1536. *)
Lemma orientation_preserved_witness :
  target_size 4000 3000 2048 = Ok (Some (2048, 1536)) /\
  (3000 <= 4000 -> 1536 <= 2048).
Proof.
  assert (Et : target_size 4000 3000 2048 = Ok (Some (2048, 1536)))
    by (vm_compute; reflexivity).
  split; [exact Et|].
  apply (orientation_preserved 4000 3000 2048 2048 1536);
    [lia | lia | lia | lia | exact Et].
Defined.


(** X4 on the 4000 x 3000 scan with bound 2048: the stream that came
    back is within the bound and a second pass keeps its size. *)
Lemma renormalize_after_resize_witness :
  exists bytes out w1 h1,
    Base64.b64decode
      (list_byte_of_string "SlUwMDAwMDAwMDAwMC4wMDAwMDAwMDAxLg==")
    = Some bytes /\
    output_image "SlUwMDAwMDAwMDAwMC4wMDAwMDAwMDAxLg==" = Some out /\
    size out = (w1, h1) /\ Z.max w1 h1 <= 2048 /\
    forall fs' path',
      fs' path' = Content bytes ->
      exists text' out',
        resize_and_encode fs' path' 2048 = Ok text' /\
        output_image text' = Some out' /\ size out' = (w1, h1).
Proof.
  apply (renormalize_after_resize (PIL := Sample.pil)
           scan_4000x3000 "huge_scan.png" 2048
           {| Sample.r_size := (4000, 3000); Sample.r_mode := Mode_RGBA;
              Sample.r_load := None |}
           4000 3000 "SlUwMDAwMDAwMDAwMC4wMDAwMDAwMDAxLg==");
    [ vm_compute; reflexivity | reflexivity | lia | lia | lia | lia
    | vm_compute; reflexivity ].
Defined.



(** X8 on the 4000 x 3000 scan: 26 bytes give 36 characters. *)
Lemma text_length_witness :
  exists img bytes,
    Image_open scan_4000x3000 "huge_scan.png" = Ok img /\
    compressed img 2048 = Ok bytes /\
    String.length "SlUwMDAwMDAwMDAwMC4wMDAwMDAwMDAxLg=="
    = (4 * ((List.length bytes + 2) / 3))%nat /\
    (List.length bytes
     <= String.length "SlUwMDAwMDAwMDAwMC4wMDAwMDAwMDAxLg==")%nat.
Proof.
  apply (text_length (PIL := Sample.pil)
           scan_4000x3000 "huge_scan.png" 2048
           "SlUwMDAwMDAwMDAwMC4wMDAwMDAwMDAxLg==");
    vm_compute; reflexivity.
Defined.

(** X9 on the 4000 x 3000 scan, with a client that is interrupted: the
    request is made and nothing is printed. *)
Lemma script_ends_witness :
  Script.printed
    (Script.script scan_4000x3000
       {| Script.client :=
            Some (fun _ => Script.Passed Script.KeyboardInterrupt);
          Script.show_json := fun s => Script.Got s |}) = [] /\
  Script.requested
    (Script.script scan_4000x3000
       {| Script.client :=
            Some (fun _ => Script.Passed Script.KeyboardInterrupt);
          Script.show_json := fun s => Script.Got s |})
  = [Script.the_request "SlUwMDAwMDAwMDAwMC4wMDAwMDAwMDAxLg=="].
Proof.
  destruct (script_ends (PIL := Sample.pil) scan_4000x3000
              {| Script.client :=
                   Some (fun _ => Script.Passed Script.KeyboardInterrupt);
                 Script.show_json := fun s => Script.Got s |})
    as [_ H].
  destruct (H "SlUwMDAwMDAwMDAwMC4wMDAwMDAwMDAxLg=="%string)
    as (_ & _ & _ & Hi & _); [vm_compute; reflexivity|].
  destruct (Hi Script.KeyboardInterrupt) as (Hp & Hr & _);
    [vm_compute; reflexivity|].
  split; [exact Hp | exact Hr].
Defined.

(** X10 on the 4000 x 3000 scan, with a client that answers [{}] and a
    [json.loads] that prints what it is given. *)
Lemma script_request_carries_image_witness :
  exists text img bytes out,
    resize_and_encode scan_4000x3000 "huge_scan.png" default_max_dimension
    = Ok text /\
    Script.the_request "SlUwMDAwMDAwMDAwMC4wMDAwMDAwMDAxLg=="
    = Script.the_request text /\
    Script.image_urls
      (Script.the_request "SlUwMDAwMDAwMDAwMC4wMDAwMDAwMDAxLg==")
    = [Script.data_url text] /\
    Script.after_comma (Script.data_url text) = text /\
    Image_open scan_4000x3000 "huge_scan.png" = Ok img /\
    compressed img default_max_dimension = Ok bytes /\
    Base64.b64decode
      (list_byte_of_string (Script.after_comma (Script.data_url text)))
    = Some bytes /\
    decode bytes = Some out /\ mode out = Mode_RGB.
Proof.
  apply (script_request_carries_image (PIL := Sample.pil)
           scan_4000x3000
           {| Script.client := Some (fun _ => Script.Got "{}"%string);
              Script.show_json := fun s => Script.Got s |}
           (Script.the_request "SlUwMDAwMDAwMDAwMC4wMDAwMDAwMDAxLg==")).
  vm_compute. left. reflexivity.
Defined.
